(** * Offline synchronisation queue of the inspection client

    A shallow embedding of [apps/web/src/hooks/useOfflineSync.ts] and of the
    Dexie schema it works on ([db]: the [SyncOperation] rows of [syncQueue]
    and the [sessions] / [items] / [defects] tables), followed by the
    properties of the replay protocol.

    The asynchronous functions of the hook are embedded as programs over the
    effects they perform (one constructor per awaited call or state setter).
    The programs are given two semantics: a sequential interpreter, which runs
    one call to completion, and a resumption semantics, in which a call runs
    up to its next [await] and several calls can be interleaved. *)

From stdpp Require Import gmap strings list sorting.
From Stdlib Require Import ZArith.

Local Open Scope string_scope.

(** ** Data model ([db] module) *)

Inductive OpType := CREATE | UPDATE | DELETE.
Inductive EntityType := session | item | defect.
Inductive SyncStatus := synced | pending | error.

#[global] Instance OpType_eq_dec : EqDecision OpType.
Proof. solve_decision. Defined.
#[global] Instance EntityType_eq_dec : EqDecision EntityType.
Proof. solve_decision. Defined.
#[global] Instance SyncStatus_eq_dec : EqDecision SyncStatus.
Proof. solve_decision. Defined.

(** [Record<string, unknown>]: the payload is only read through two of its
    properties ([sessionId], [itemId]) and otherwise passed on as it is. *)
Definition Payload := list (string * string).

Fixpoint get_prop (k : string) (d : Payload) : option string :=
  match d with
  | [] => None
  | (k', v) :: d' => if String.eqb k k' then Some v else get_prop k d'
  end.

(** [interface SyncOperation]. [op_id] is the [id?: number] field: the
    generated key of the [++id] table, present on every stored row. *)
Record SyncOperation := {
  op_id : nat;
  type : OpType;
  entityType : EntityType;
  localId : string;
  serverId : option string;
  data : Payload;
  timestamp : Z;
  attempts : nat;
  lastError : option string }.

(** [LocalSession], [LocalItem], [LocalDefect]: the entity's own [id] (the
    server's identifier), the [SyncableEntity] fields and the remaining
    domain fields. The [localId] is the key of the table. *)
Record LocalEntity := {
  ent_id : option string;
  syncStatus : SyncStatus;
  lastModified : Z;
  fields : Payload }.

(** [class GlassInspectorDB]: the three entity tables keyed by [localId]
    and the queue with its key generator. *)
Record DB := {
  sessions : gmap string LocalEntity;
  items : gmap string LocalEntity;
  defects : gmap string LocalEntity;
  syncQueue : list SyncOperation;
  nextId : nat }.

(** ** The remote collaborator ([api]) *)

Inductive Request :=
  | api_post (url : string) (body : Payload)
  | api_patch (url : string) (body : Payload)
  | api_delete (url : string).

(** [ApiResponse<T>]: [success] and the optional [data]. *)
Record ApiResponse := {
  success : bool;
  rdata : option Payload }.

(** A call either resolves with a response or rejects; [Throws e] carries
    [String(error)]. *)
Inductive Outcome :=
  | Returns (r : ApiResponse)
  | Throws (e : string).

(** ** Table operations *)

(** Index order of IndexedDB: by index key, then by primary key. *)
Definition op_leb (a b : SyncOperation) : bool :=
  (timestamp a <? timestamp b)%Z
  || ((timestamp a =? timestamp b)%Z && (op_id a <=? op_id b)%nat).

Definition op_le (a b : SyncOperation) : Prop := Is_true (op_leb a b).

(** [db.syncQueue.orderBy('timestamp').toArray()] *)
Definition orderBy_timestamp (q : list SyncOperation) : list SyncOperation :=
  merge_sort op_le q.

(** [db.syncQueue.delete(k)] *)
Definition queue_delete (k : nat) (q : list SyncOperation) : list SyncOperation :=
  filter (fun o => op_id o <> k) q.

Definition set_attempt (a : nat) (e : string) (o : SyncOperation) : SyncOperation :=
  {| op_id := op_id o; type := type o; entityType := entityType o;
     localId := localId o; serverId := serverId o; data := data o;
     timestamp := timestamp o; attempts := a; lastError := Some e |}.

(** [db.syncQueue.update(k, { attempts: a, lastError: e })] *)
Definition queue_update (k a : nat) (e : string) (q : list SyncOperation)
  : list SyncOperation :=
  (fun o => if decide (op_id o = k) then set_attempt a e o else o) <$> q.

Definition with_key (k : nat) (o : SyncOperation) : SyncOperation :=
  {| op_id := k; type := type o; entityType := entityType o;
     localId := localId o; serverId := serverId o; data := data o;
     timestamp := timestamp o; attempts := attempts o;
     lastError := lastError o |}.

Definition table (t : EntityType) (d : DB) : gmap string LocalEntity :=
  match t with
  | session => sessions d
  | item => items d
  | defect => defects d
  end.

Definition set_table (t : EntityType) (m : gmap string LocalEntity) (d : DB) : DB :=
  match t with
  | session => {| sessions := m; items := items d; defects := defects d;
                  syncQueue := syncQueue d; nextId := nextId d |}
  | item => {| sessions := sessions d; items := m; defects := defects d;
               syncQueue := syncQueue d; nextId := nextId d |}
  | defect => {| sessions := sessions d; items := items d; defects := m;
                 syncQueue := syncQueue d; nextId := nextId d |}
  end.

Definition set_queue (q : list SyncOperation) (d : DB) : DB :=
  {| sessions := sessions d; items := items d; defects := defects d;
     syncQueue := q; nextId := nextId d |}.

(** [db.syncQueue.add(row)]: the row gets the next generated key. *)
Definition queue_add (row : SyncOperation) (d : DB) : DB :=
  {| sessions := sessions d; items := items d; defects := defects d;
     syncQueue := (syncQueue d ++ [with_key (nextId d) row])%list;
     nextId := S (nextId d) |}.

Definition bind_entity (sid : option string) (s : SyncStatus) (e : LocalEntity)
  : LocalEntity :=
  {| ent_id := sid; syncStatus := s; lastModified := lastModified e;
     fields := fields e |}.

(** ** Effects and programs *)

(** One constructor per awaited call and per state setter of the hook.
    [ApiRequest] is labelled with the operation being replayed. *)
Inductive Eff : Type -> Type :=
  | ApiRequest (op : SyncOperation) (req : Request) : Eff Outcome
  | QueueOrderBy : Eff (list SyncOperation)
  | QueueDelete (k : nat) : Eff unit
  | QueueUpdate (k a : nat) (e : string) : Eff unit
  | QueueCount : Eff nat
  | QueueAdd (row : SyncOperation) : Eff unit
  | TableGet (t : EntityType) (k : string) : Eff (option LocalEntity)
  | TableUpdate (t : EntityType) (k : string) (sid : option string)
      (s : SyncStatus) : Eff unit
  | SetIsSyncing (b : bool) : Eff unit
  | SetPendingCount (f : nat -> nat) : Eff unit.

(** The setters of React state run synchronously; every other effect is an
    [await] at which the caller is suspended. *)
Definition is_await {X} (e : Eff X) : bool :=
  match e with
  | SetIsSyncing _ | SetPendingCount _ => false
  | _ => true
  end.

(** A [Promise<void>]-returning function: it finishes, throws, performs an
    effect and goes on with its result, or registers a timer callback. *)
Inductive Prog : Type :=
  | Done
  | Throw (e : string)
  | Vis {X : Type} (e : Eff X) (k : X -> Prog)
  | SetTimeout (callback : Prog) (k : Prog).

Fixpoint seq (p q : Prog) : Prog :=
  match p with
  | Done => q
  | Throw e => Throw e
  | Vis e k => Vis e (fun x => seq (k x) q)
  | SetTimeout cb k => SetTimeout cb (seq k q)
  end.

(** [try { p } catch (error) { h error }] *)
Fixpoint try_catch (p : Prog) (h : string -> Prog) : Prog :=
  match p with
  | Done => Done
  | Throw e => h e
  | Vis e k => Vis e (fun x => try_catch (k x) h)
  | SetTimeout cb k => SetTimeout cb (try_catch k h)
  end.

(** [try { p } finally { f }] *)
Fixpoint try_finally (p f : Prog) : Prog :=
  match p with
  | Done => f
  | Throw e => seq f (Throw e)
  | Vis e k => Vis e (fun x => try_finally (k x) f)
  | SetTimeout cb k => SetTimeout cb (try_finally k f)
  end.

(** [for (const op of operations) { body op }] *)
Fixpoint for_of (operations : list SyncOperation) (body : SyncOperation -> Prog)
  : Prog :=
  match operations with
  | [] => Done
  | op :: rest => seq (body op) (for_of rest body)
  end.

Declare Scope prog_scope.
Delimit Scope prog_scope with prog.
Notation "'await' x <- e ; k" := (Vis e (fun x => k))
  (at level 10, x name, e at level 99, k at level 200) : prog_scope.
Notation "'perform' e ; k" := (Vis e (fun _ => k))
  (at level 10, e at level 99, k at level 200) : prog_scope.
Local Open Scope prog_scope.

(** [await api.post(...)] and the like: a rejected promise is a throw. *)
Definition api_call (op : SyncOperation) (req : Request) (k : ApiResponse -> Prog)
  : Prog :=
  await o <- ApiRequest op req;
  match o with
  | Returns r => k r
  | Throws e => Throw e
  end.

(** Truthiness of an optional string: [undefined] and [''] are falsy. *)
Definition truthy (s : option string) : option string :=
  match s with
  | Some "" => None
  | _ => s
  end.

(** A value interpolated in a template literal. *)
Definition interp (s : option string) : string :=
  match s with
  | Some v => v
  | None => "undefined"
  end.

(** ** The hook ([useOfflineSync.ts]) *)

Definition processSessionOperation (op : SyncOperation) : Prog :=
  match type op with
  | CREATE =>
      api_call op (api_post "/sessions" (data op)) (fun response =>
        if success response && bool_decide (is_Some (rdata response)) then
          await localSession <- TableGet session (localId op);
          match localSession with
          | Some _ =>
              perform TableUpdate session (localId op)
                (get_prop "id" (default [] (rdata response))) synced;
              Done
          | None => Done
          end
        else Done)
  | UPDATE =>
      match truthy (serverId op) with
      | Some sid => api_call op (api_patch ("/sessions/" +:+ sid) (data op))
                      (fun _ => Done)
      | None => Done
      end
  | DELETE =>
      match truthy (serverId op) with
      | Some sid => api_call op (api_delete ("/sessions/" +:+ sid))
                      (fun _ => Done)
      | None => Done
      end
  end.

Definition processItemOperation (op : SyncOperation) : Prog :=
  match type op with
  | CREATE =>
      let sessionId := get_prop "sessionId" (data op) in
      api_call op
        (api_post ("/sessions/" +:+ interp sessionId +:+ "/items") (data op))
        (fun response =>
        if success response && bool_decide (is_Some (rdata response)) then
          await localItem <- TableGet item (localId op);
          match localItem with
          | Some _ =>
              perform TableUpdate item (localId op)
                (get_prop "id" (default [] (rdata response))) synced;
              Done
          | None => Done
          end
        else Done)
  | UPDATE =>
      match truthy (serverId op) with
      | Some sid => api_call op (api_patch ("/sessions/items/" +:+ sid) (data op))
                      (fun _ => Done)
      | None => Done
      end
  | DELETE => Done (* no such case in the switch *)
  end.

Definition processDefectOperation (op : SyncOperation) : Prog :=
  match type op with
  | CREATE =>
      let itemId := get_prop "itemId" (data op) in
      api_call op
        (api_post ("/sessions/items/" +:+ interp itemId +:+ "/defects") (data op))
        (fun response =>
        if success response && bool_decide (is_Some (rdata response)) then
          await localDefect <- TableGet defect (localId op);
          match localDefect with
          | Some _ =>
              perform TableUpdate defect (localId op)
                (get_prop "id" (default [] (rdata response))) synced;
              Done
          | None => Done
          end
        else Done)
  | UPDATE => Done (* no such case in the switch *)
  | DELETE =>
      match truthy (serverId op) with
      | Some sid => api_call op (api_delete ("/sessions/defects/" +:+ sid))
                      (fun _ => Done)
      | None => Done
      end
  end.

Definition processOperation (op : SyncOperation) : Prog :=
  match entityType op with
  | session => processSessionOperation op
  | item => processItemOperation op
  | defect => processDefectOperation op
  end.

(** The body of the [for] loop of [processQueue]. *)
Definition replay (op : SyncOperation) : Prog :=
  try_catch
    (seq (processOperation op)
         (perform QueueDelete (op_id op); Done))
    (fun error =>
       perform QueueUpdate (op_id op) (attempts op + 1)%nat error;
       if (5 <=? attempts op)%nat
       then (perform QueueDelete (op_id op); Done)
       else Done).

(** [processQueue], as created by a render in which the state [isSyncing]
    had the given value: the callback closes over that constant. *)
Definition processQueue (isSyncing : bool) : Prog :=
  if isSyncing then Done
  else
    perform SetIsSyncing true;
    try_finally
      (await operations <- QueueOrderBy;
       for_of operations replay)
      (perform SetIsSyncing false;
       await count <- QueueCount;
       perform SetPendingCount (fun _ => count);
       Done).

(** [addToQueue], as created by a render in which [isOnline] had the given
    value and [processQueue] was the given callback; [now] is what
    [Date.now()] returns. *)
Definition addToQueue (isOnline : bool) (processQueue : Prog) (now : Z)
    (ty : OpType) (ety : EntityType) (lid : string) (dat : Payload)
    (sid : option string) : Prog :=
  perform QueueAdd {| op_id := 0; type := ty; entityType := ety; localId := lid;
                      serverId := sid; data := dat; timestamp := now;
                      attempts := 0; lastError := None |};
  perform SetPendingCount (fun c => (c + 1)%nat);
  if isOnline then SetTimeout processQueue Done else Done.

(** The effect that starts a drain, run by a render that sees the given
    state: [if (isOnline && pendingCount > 0 && !isSyncing) processQueue()],
    with the [processQueue] of that render. *)
Definition sync_effect (isOnline : bool) (pendingCount : nat) (isSyncing : bool)
  : option Prog :=
  if isOnline && (0 <? pendingCount)%nat && negb isSyncing
  then Some (processQueue isSyncing)
  else None.

(** ** Worlds *)

(** Remote traffic, in the order it happens: a request leaving and its
    promise settling. *)
Inductive Event :=
  | EvCall (op : SyncOperation) (req : Request)
  | EvReturn (op : SyncOperation) (out : Outcome).

(** The two [useState] cells of [useOfflineSync]. *)
Record Hook := {
  isSyncing : bool;
  pendingCount : nat }.

(** The local database, the React state, the state of the remote
    collaborator, the traffic so far and the timers registered. *)
Record World (RS : Type) := {
  db : DB;
  hook : Hook;
  remote : RS;
  log : list Event;
  timers : list Prog }.

Arguments db {RS} _.
Arguments hook {RS} _.
Arguments remote {RS} _.
Arguments log {RS} _.
Arguments timers {RS} _.

Section Semantics.
Context {RS : Type}.

(** The remote collaborator: what a request does to its state and how
    the promise settles. *)
Variable api : Request -> RS -> Outcome * RS.

Definition set_db (d : DB) (w : World RS) : World RS :=
  {| db := d; hook := hook w; remote := remote w; log := log w;
     timers := timers w |}.

Definition set_hook (h : Hook) (w : World RS) : World RS :=
  {| db := db w; hook := h; remote := remote w; log := log w;
     timers := timers w |}.

Definition set_timers (ts : list Prog) (w : World RS) : World RS :=
  {| db := db w; hook := hook w; remote := remote w; log := log w;
     timers := ts |}.

Definition emit (ev : Event) (w : World RS) : World RS :=
  {| db := db w; hook := hook w; remote := remote w;
     log := (log w ++ [ev])%list; timers := timers w |}.

Definition settle (op : SyncOperation) (out : Outcome) (r : RS) (w : World RS)
  : World RS :=
  {| db := db w; hook := hook w; remote := r;
     log := (log w ++ [EvReturn op out])%list; timers := timers w |}.

(** What starting an awaited call does at once: a request leaves. *)
Definition initiate {X} (e : Eff X) (w : World RS) : World RS :=
  match e with
  | ApiRequest op req => emit (EvCall op req) w
  | _ => w
  end.

(** What the call has done when its promise settles, and its result. *)
Definition complete {X} (e : Eff X) (w : World RS) : X * World RS :=
  match e in Eff X return X * World RS with
  | ApiRequest op req =>
      let (out, r) := api req (remote w) in (out, settle op out r w)
  | QueueOrderBy => (orderBy_timestamp (syncQueue (db w)), w)
  | QueueDelete k =>
      (tt, set_db (set_queue (queue_delete k (syncQueue (db w))) (db w)) w)
  | QueueUpdate k a e =>
      (tt, set_db (set_queue (queue_update k a e (syncQueue (db w))) (db w)) w)
  | QueueCount => (length (syncQueue (db w)), w)
  | QueueAdd row => (tt, set_db (queue_add row (db w)) w)
  | TableGet t k => (table t (db w) !! k, w)
  | TableUpdate t k sid s =>
      (tt, set_db (set_table t (alter (bind_entity sid s) k (table t (db w)))
                     (db w)) w)
  | SetIsSyncing b =>
      (tt, set_hook {| isSyncing := b; pendingCount := pendingCount (hook w) |} w)
  | SetPendingCount f =>
      (tt, set_hook {| isSyncing := isSyncing (hook w);
                       pendingCount := f (pendingCount (hook w)) |} w)
  end.

Definition handle {X} (e : Eff X) (w : World RS) : X * World RS :=
  complete e (initiate e w).

(** *** Sequential semantics: one call run to completion, alone *)

Fixpoint run (p : Prog) (w : World RS) : option string * World RS :=
  match p with
  | Done => (None, w)
  | Throw e => (Some e, w)
  | Vis e k => let (x, w') := handle e w in run (k x) w'
  | SetTimeout cb k => run k (set_timers (timers w ++ [cb])%list w)
  end.

(** *** Resumption semantics: calls interleaved at their awaits *)

Inductive Task :=
  | Ready (p : Prog)
  | Suspended {X : Type} (e : Eff X) (k : X -> Prog)
  | Finished (r : option string).

(** Run synchronously up to the next [await], which is started. *)
Fixpoint advance (p : Prog) (w : World RS) : Task * World RS :=
  match p with
  | Done => (Finished None, w)
  | Throw e => (Finished (Some e), w)
  | Vis e k =>
      if is_await e then (Suspended e k, initiate e w)
      else let (x, w') := handle e w in advance (k x) w'
  | SetTimeout cb k => advance k (set_timers (timers w ++ [cb])%list w)
  end.

(** Start a call, or resume one whose awaited promise settles. *)
Definition resume (t : Task) (w : World RS) : Task * World RS :=
  match t with
  | Ready p => advance p w
  | Suspended e k => let (x, w') := complete e w in advance (k x) w'
  | Finished r => (Finished r, w)
  end.

Inductive Action :=
  | Resume (i : nat)
  | Fire (i : nat)
  | Render (isOnline : bool).

Definition System : Type := list Task * World RS.

(** One turn of the event loop: task [i] goes on, timer [i] fires and its
    callback becomes a task, or the component renders after a change of
    state and its effect runs. *)
Definition act (s : System) (a : Action) : System :=
  let (tasks, w) := s in
  match a with
  | Resume i =>
      match tasks !! i with
      | Some t => let (t', w') := resume t w in (<[i := t']> tasks, w')
      | None => s
      end
  | Fire i =>
      match timers w !! i with
      | Some cb => ((tasks ++ [Ready cb])%list, set_timers (delete i (timers w)) w)
      | None => s
      end
  | Render isOnline =>
      match sync_effect isOnline (pendingCount (hook w)) (isSyncing (hook w)) with
      | Some p => ((tasks ++ [Ready p])%list, w)
      | None => s
      end
  end.

Definition schedule (acts : list Action) (s : System) : System :=
  foldl act s acts.

(** A task driven alone for [n] turns. *)
Fixpoint drive (n : nat) (s : Task * World RS) : Task * World RS :=
  match n with
  | O => s
  | S n' => drive n' (resume (fst s) (snd s))
  end.

(** *** What a handler does, what a replay does to the queue *)

Definition url_of (req : Request) : string :=
  match req with
  | api_post u _ | api_patch u _ | api_delete u => u
  end.

(** The request a handler sends for [op]: a creation carrying the payload,
    or an update or deletion addressed to the [serverId] field of [op]. *)
Definition targets (op : SyncOperation) (req : Request) : Prop :=
  match type op with
  | CREATE => exists u, req = api_post u (data op)
  | UPDATE => exists prefix sid, truthy (serverId op) = Some sid /\
                req = api_patch (prefix +:+ sid) (data op)
  | DELETE => exists prefix sid, truthy (serverId op) = Some sid /\
                req = api_delete (prefix +:+ sid)
  end.

(** The database after a handler got response [r]: only a creation that
    succeeded with data, for an entity that is in its table, writes. *)
Definition stored (op : SyncOperation) (r : ApiResponse) (d : DB) : DB :=
  match type op with
  | CREATE =>
      if success r && bool_decide (is_Some (rdata r)) then
        match table (entityType op) d !! localId op with
        | Some _ =>
            set_table (entityType op)
              (alter (bind_entity (get_prop "id" (default [] (rdata r))) synced)
                 (localId op) (table (entityType op) d)) d
        | None => d
        end
      else d
  | _ => d
  end.

Definition sent (op : SyncOperation) (req : Request) (out : Outcome) (rs : RS)
    (w : World RS) : World RS :=
  settle op out rs (emit (EvCall op req) w).

(** The three ways a handler can end. *)
Inductive handled (op : SyncOperation) (w : World RS)
  : option string * World RS -> Prop :=
  | handled_skip :
      type op <> CREATE ->
      handled op w (None, w)
  | handled_throw req e rs :
      api req (remote w) = (Throws e, rs) ->
      targets op req ->
      handled op w (Some e, sent op req (Throws e) rs w)
  | handled_return req r rs :
      api req (remote w) = (Returns r, rs) ->
      targets op req ->
      handled op w
        (None, set_db (stored op r (db w)) (sent op req (Returns r) rs w)).

Definition on_queue (f : list SyncOperation -> list SyncOperation) (w : World RS)
  : World RS :=
  set_db (set_queue (f (syncQueue (db w))) (db w)) w.

(** The operation leaves the queue. *)
Definition removed (op : SyncOperation) (w : World RS) : World RS :=
  on_queue (queue_delete (op_id op)) w.

(** The [catch] branch: the failure is recorded on the row, which is then
    deleted if the operation read at the start of the drain had already
    five attempts. *)
Definition failed (op : SyncOperation) (e : string) (w : World RS) : World RS :=
  let w1 := on_queue (queue_update (op_id op) (attempts op + 1) e) w in
  if (5 <=? attempts op)%nat then removed op w1 else w1.

Definition begin_drain (w : World RS) : World RS :=
  set_hook {| isSyncing := true; pendingCount := pendingCount (hook w) |} w.

Definition end_drain (w : World RS) : World RS :=
  set_hook {| isSyncing := false;
              pendingCount := length (syncQueue (db w)) |} w.

End Semantics.

(** ** Notions the properties are stated with *)

(** The [CREATE] case of a handler, which the three handlers share up to
    the url and the table. *)
Definition create_case (t : EntityType) (url : string) (op : SyncOperation)
  : Prog :=
  api_call op (api_post url (data op)) (fun response =>
    if success response && bool_decide (is_Some (rdata response)) then
      await localEntity <- TableGet t (localId op);
      match localEntity with
      | Some _ =>
          perform TableUpdate t (localId op)
            (get_prop "id" (default [] (rdata response))) synced;
          Done
      | None => Done
      end
    else Done).

(** [n] drains one after the other. *)
Fixpoint drains {RS : Type} (api : Request -> RS -> Outcome * RS) (n : nat)
    (w : World RS) : World RS :=
  match n with
  | O => w
  | S n' => drains api n' (snd (run api (processQueue false) w))
  end.

(** Every request is settled before the next one leaves. *)
Fixpoint serial (tr : list Event) : Prop :=
  match tr with
  | [] => True
  | EvCall op _ :: EvReturn op' _ :: tr' => op' = op /\ serial tr'
  | _ => False
  end.

(** The operations submitted, in the order of their requests. *)
Fixpoint submitted (tr : list Event) : list SyncOperation :=
  match tr with
  | [] => []
  | EvCall op _ :: tr' => op :: submitted tr'
  | EvReturn _ _ :: tr' => submitted tr'
  end.

Definition by_timestamp (a b : SyncOperation) : Prop :=
  (timestamp a <= timestamp b)%Z.

(** No call throws, and every creation is answered with [success], data
    and an identifier in it. *)
Definition succeeds {RS : Type} (api : Request -> RS -> Outcome * RS) : Prop :=
  forall req rs, exists r,
    fst (api req rs) = Returns r /\
    forall u b, req = api_post u b ->
      success r = true /\
      exists d sid, rdata r = Some d /\ get_prop "id" d = Some sid.

(** The entity under [lid] in table [t] is [synced] and carries an
    identifier that the collaborator returned for a creation of it. *)
Definition bound {RS : Type} (t : EntityType) (lid : string) (w : World RS)
  : Prop :=
  exists e sid o r,
    table t (db w) !! lid = Some e /\
    syncStatus e = synced /\
    ent_id e = Some sid /\
    EvReturn o (Returns r) ∈ log w /\
    type o = CREATE /\ entityType o = t /\ localId o = lid /\
    get_prop "id" (default [] (rdata r)) = Some sid.

(** ** Scenarios *)

(** A collaborator that accepts every request and answers creations with
    the identifier [srv-1]; its state counts the requests served. *)
Definition always_ok (req : Request) (n : nat) : Outcome * nat :=
  (Returns {| success := true; rdata := Some [("id", "srv-1")] |}, S n).

(** A collaborator that is unreachable: every call rejects. *)
Definition always_fails (req : Request) (n : nat) : Outcome * nat :=
  (Throws "Error: Network Error", S n).

(** A collaborator that answers without throwing but refuses. *)
Definition always_refuses (req : Request) (n : nat) : Outcome * nat :=
  (Returns {| success := false; rdata := None |}, S n).

Definition pending_entity : LocalEntity :=
  {| ent_id := None; syncStatus := pending; lastModified := 1000; fields := [] |}.

(** An edited entity whose identifier is known. *)
Definition edited_entity : LocalEntity :=
  {| ent_id := Some "srv-1"; syncStatus := pending; lastModified := 2000;
     fields := [("status", "CLOSED")] |}.

Definition create_op : SyncOperation :=
  {| op_id := 1; type := CREATE; entityType := session; localId := "local-1";
     serverId := None; data := [("productId", "p-1")]; timestamp := 1000;
     attempts := 0; lastError := None |}.

(** An update enqueued while the session had no server identifier. *)
Definition update_op : SyncOperation :=
  {| op_id := 2; type := UPDATE; entityType := session; localId := "local-1";
     serverId := None; data := [("status", "CLOSED")]; timestamp := 2000;
     attempts := 0; lastError := None |}.

(** An update enqueued with the server identifier. *)
Definition update_known_op : SyncOperation :=
  {| op_id := 2; type := UPDATE; entityType := session; localId := "local-1";
     serverId := Some "srv-1"; data := [("status", "CLOSED")]; timestamp := 2000;
     attempts := 0; lastError := None |}.

Definition item_delete_op : SyncOperation :=
  {| op_id := 3; type := DELETE; entityType := item; localId := "local-2";
     serverId := Some "srv-2"; data := []; timestamp := 3000;
     attempts := 0; lastError := None |}.

(** A world with one session under [local-1] and the given queue. *)
Definition world (e : LocalEntity) (q : list SyncOperation) : World nat :=
  {| db := {| sessions := {["local-1" := e]}; items := ∅; defects := ∅;
              syncQueue := q; nextId := 10 |};
     hook := {| isSyncing := false; pendingCount := length q |};
     remote := 0; log := []; timers := [] |}.

(** The queue is empty, the session [local-1] exists locally, the hook is
    idle. *)
Definition idle_world : World nat :=
  {| db := {| sessions := {["local-1" := pending_entity]}; items := ∅;
              defects := ∅; syncQueue := []; nextId := 1 |};
     hook := {| isSyncing := false; pendingCount := 0 |};
     remote := 0; log := []; timers := [] |}.

(** The user action: one creation enqueued while online, through the
    [addToQueue] of the idle render. *)
Definition enqueue_create : Prog :=
  addToQueue true (processQueue false) 1000 CREATE session "local-1"
    [("productId", "p-1")] None.

(** The row is added and the timer registered; the render that follows the
    change of [pendingCount] starts a drain, which reads the queue and posts
    the creation; the timer then fires while the post is in flight, and its
    [processQueue] reads the queue and posts too. *)
Definition overlap : list Action :=
  [Resume 0; Resume 0; Render true; Resume 1; Resume 1;
   Fire 0; Resume 2; Resume 2].

(** Both drains then run to their end. *)
Definition to_the_end : list Action :=
  [Resume 1; Resume 1; Resume 1; Resume 1; Resume 1;
   Resume 2; Resume 2; Resume 2; Resume 2; Resume 2].

Definition posted : Event :=
  EvCall create_op (api_post "/sessions" [("productId", "p-1")]).

(** ** The cached catalogs ([db] module, [useDataCache]) *)

(** [Product], [Workstation], [DefectType]: the [id] the table is keyed by
    and the remaining fields. *)
Record Reference := {
  ref_id : string;
  ref_fields : Payload }.

(** [LocalProduct], [LocalWorkstation], [LocalDefectType]: the record
    spread, with the [SyncableEntity] fields set. *)
Record LocalReference := {
  lr_id : string;
  lr_fields : Payload;
  lr_syncStatus : SyncStatus;
  lr_lastModified : Z }.

(** The three catalog tables of [GlassInspectorDB], keyed by [id]. *)
Record Catalogs := {
  products : gmap string LocalReference;
  workstations : gmap string LocalReference;
  defectTypes : gmap string LocalReference }.

(** [{ ...p, syncStatus: 'synced', lastModified: Date.now() }] *)
Definition as_synced (now : Z) (p : Reference) : LocalReference :=
  {| lr_id := ref_id p; lr_fields := ref_fields p; lr_syncStatus := synced;
     lr_lastModified := now |}.

(** [list.map((p) => ({ ...p, ... }))]; [clock i] is what [Date.now()]
    returns in the call for the element of index [i]. *)
Definition localize (clock : nat -> Z) (l : list Reference)
  : list LocalReference :=
  imap (fun i p => as_synced (clock i) p) l.

(** [table.bulkPut(rows)]: every row is put under its [id], in order, a
    later row replacing an earlier one with the same key. *)
Definition bulkPut (rows : list LocalReference)
    (m : gmap string LocalReference) : gmap string LocalReference :=
  foldl (fun acc r => <[lr_id r := r]> acc) m rows.

Definition cacheProducts (clock : nat -> Z) (l : list Reference) (c : Catalogs)
  : Catalogs :=
  {| products := bulkPut (localize clock l) (products c);
     workstations := workstations c; defectTypes := defectTypes c |}.

Definition cacheWorkstations (clock : nat -> Z) (l : list Reference)
    (c : Catalogs) : Catalogs :=
  {| products := products c;
     workstations := bulkPut (localize clock l) (workstations c);
     defectTypes := defectTypes c |}.

Definition cacheDefectTypes (clock : nat -> Z) (l : list Reference)
    (c : Catalogs) : Catalogs :=
  {| products := products c; workstations := workstations c;
     defectTypes := bulkPut (localize clock l) (defectTypes c) |}.

(** [clearAllData]: the seven tables are cleared one after the other;
    clearing a table does not touch its key generator. *)
Definition clearAllData (d : DB) (c : Catalogs) : DB * Catalogs :=
  ({| sessions := ∅; items := ∅; defects := ∅; syncQueue := [];
      nextId := nextId d |},
   {| products := ∅; workstations := ∅; defectTypes := ∅ |}).

(** How [api.get<T[]>(...)] settles: a response with its optional [data],
    or a rejection. *)
Inductive GetOutcome :=
  | GetReturns (data : option (list Reference))
  | GetThrows (e : string).

(** A [queryFn] of [useDataCache] for the catalog cached by [cache]:
    [response.data || []] is cached and returned; a rejected request
    throws before anything is cached. *)
Definition queryFn (cache : list Reference -> Catalogs -> Catalogs)
    (out : GetOutcome) (c : Catalogs) : (string + list Reference) * Catalogs :=
  match out with
  | GetThrows e => (inl e, c)
  | GetReturns d => let data := default [] d in (inr data, cache data c)
  end.

(** [updateCount], the poll of [useOfflineSync]: the pending count is read
    from the table. *)
Definition updateCount : Prog :=
  await count <- QueueCount;
  perform SetPendingCount (fun _ => count);
  Done.

(** ** The indicator ([OfflineIndicator] in [layout.tsx]) *)

(** What the component renders inside its container: the offline label
    with an optional pending badge, the spinner, the pending count, or
    nothing ([null] in the last branch of the conditional). *)
Inductive Badge :=
  | OfflineBadge (pending : option nat)
  | SyncingBadge
  | PendingBadge (n : nat)
  | NoBadge.

(** [None] is the early [return null]: no container at all. *)
Definition OfflineIndicator (isOnline isSyncing : bool) (pendingCount : nat)
  : option Badge :=
  if isOnline && (pendingCount =? 0)%nat && negb isSyncing then None
  else
    Some (if negb isOnline
          then OfflineBadge (if (0 <? pendingCount)%nat then Some pendingCount
                             else None)
          else if isSyncing then SyncingBadge
          else if (0 <? pendingCount)%nat then PendingBadge pendingCount
          else NoBadge).

(** ** Invariants of the queue *)

(** The keys of the queue are distinct and were all issued by the key
    generator. *)
Definition keys_ok (d : DB) : Prop :=
  NoDup (op_id <$> syncQueue d) /\
  forall o, o ∈ syncQueue d -> op_id o < nextId d.

(** Two rows are the same operation: they agree on everything but the
    bookkeeping of attempts. *)
Definition same_operation (a b : SyncOperation) : Prop :=
  op_id a = op_id b /\ type a = type b /\ entityType a = entityType b /\
  localId a = localId b /\ serverId a = serverId b /\ data a = data b /\
  timestamp a = timestamp b.

(** The most a drain does to an entity: it leaves it as it is, or binds
    an identifier and marks it [synced], keeping every other field. *)
Definition at_most_bound (e e' : LocalEntity) : Prop :=
  e' = e \/
  (syncStatus e' = synced /\ lastModified e' = lastModified e /\
   fields e' = fields e).

Definition is_request {X : Type} (e : Eff X) : bool :=
  match e with
  | ApiRequest _ _ => true
  | _ => false
  end.

(** A program that makes no request and registers no timer that would. *)
Inductive quiet : Prog -> Prop :=
  | quiet_Done : quiet Done
  | quiet_Throw e : quiet (Throw e)
  | quiet_Vis {X : Type} (e : Eff X) (k : X -> Prog) :
      is_request e = false ->
      (forall x, quiet (k x)) ->
      quiet (Vis e k)
  | quiet_SetTimeout cb k : quiet cb -> quiet k -> quiet (SetTimeout cb k).

(** A task that will make no request. *)
Definition quiet_task (t : Task) : Prop :=
  match t with
  | Ready p => quiet p
  | Suspended e k => is_request e = false /\ forall x, quiet (k x)
  | Finished _ => True
  end.

(** A catalog table after [l] was cached into [before]: every element of
    [l] is found under its [id], with its fields and marked [synced], and
    the rows under other keys are those of [before]. *)
Definition caches (l : list Reference)
    (before after : gmap string LocalReference) : Prop :=
  (forall p, p ∈ l ->
     exists row, after !! ref_id p = Some row /\ lr_id row = ref_id p /\
                 lr_fields row = ref_fields p /\ lr_syncStatus row = synced) /\
  (forall k, k ∉ ref_id <$> l -> after !! k = before !! k).

(** Whether the handler of [op] has a request to make: every creation,
    and an update or a deletion that has a case in the handler of its entity
    and a [serverId] that is neither absent nor empty. *)
Definition has_request (op : SyncOperation) : bool :=
  match type op, entityType op with
  | CREATE, _ => true
  | UPDATE, defect => false
  | DELETE, item => false
  | _, _ => bool_decide (is_Some (truthy (serverId op)))
  end.



(** * Properties *)

(** ** How the combinators run *)

Section Run.
Context {RS : Type} (api : Request -> RS -> Outcome * RS).

Abbreviation World := (World RS).
Abbreviation run := (run api).

Lemma run_seq (p q : Prog) (w : World) :
  run (seq p q) w =
  match run p w with
  | (None, w') => run q w'
  | (Some e, w') => (Some e, w')
  end.
Proof.
  revert w. induction p as [| e | X e k IH | cb IHcb k IH]; intros w; simpl; auto.
  destruct (handle api e w) as [x w']. apply IH.
Qed.

Lemma run_try_catch (p : Prog) (h : string -> Prog) (w : World) :
  run (try_catch p h) w =
  match run p w with
  | (None, w') => (None, w')
  | (Some e, w') => run (h e) w'
  end.
Proof.
  revert w. induction p as [| e | X e k IH | cb IHcb k IH]; intros w; simpl; auto.
  destruct (handle api e w) as [x w']. apply IH.
Qed.

Lemma run_try_finally (p f : Prog) (w : World) :
  run (try_finally p f) w =
  match run p w with
  | (None, w') => run f w'
  | (Some e, w') =>
      match run f w' with
      | (None, w'') => (Some e, w'')
      | (Some e', w'') => (Some e', w'')
      end
  end.
Proof.
  revert w. induction p as [| e | X e k IH | cb IHcb k IH]; intros w; simpl; auto.
  - rewrite run_seq. destruct (run f w) as [[e'|] w'']; reflexivity.
  - destruct (handle api e w) as [x w']. apply IH.
Qed.

Lemma set_db_same (w : World) : set_db (db w) w = w.
Proof. destruct w; reflexivity. Qed.

Lemma set_db_sent (op : SyncOperation) (req : Request) (out : Outcome) (rs : RS)
    (w : World) :
  set_db (db w) (sent op req out rs w) = sent op req out rs w.
Proof. destruct w; reflexivity. Qed.

Lemma run_api_call (op : SyncOperation) (req : Request)
    (k : ApiResponse -> Prog) (w : World) :
  run (api_call op req k) w =
  match api req (remote w) with
  | (Returns r, rs) => run (k r) (sent op req (Returns r) rs w)
  | (Throws e, rs) => (Some e, sent op req (Throws e) rs w)
  end.
Proof.
  unfold api_call. simpl. unfold handle. simpl.
  destruct (api req (remote w)) as [[r | e] rs]; reflexivity.
Qed.

Lemma create_case_handled (op : SyncOperation) (u : string) (w : World) :
  type op = CREATE ->
  handled api op w (run (create_case (entityType op) u op) w).
Proof.
  intros Hty. unfold create_case. rewrite run_api_call.
  destruct (api (api_post u (data op)) (remote w)) as [[r | e] rs] eqn:Hapi.
  - assert (Htg : targets op (api_post u (data op))).
    { unfold targets. rewrite Hty. eauto. }
    pose proof (handled_return api op w _ _ _ Hapi Htg) as Hh.
    unfold stored in Hh. rewrite Hty in Hh.
    destruct (success r && bool_decide (is_Some (rdata r))) eqn:Hok.
    + simpl. unfold handle. simpl.
      destruct (table (entityType op) (db w) !! localId op) eqn:Hget;
        simpl in *.
      * exact Hh.
      * rewrite set_db_sent in Hh. exact Hh.
    + simpl. rewrite set_db_sent in Hh. exact Hh.
  - apply handled_throw; [exact Hapi |].
    unfold targets. rewrite Hty. eauto.
Qed.

Lemma addressed_handled (op : SyncOperation) (req : Request) (w : World) :
  type op <> CREATE ->
  targets op req ->
  handled api op w (run (api_call op req (fun _ => Done)) w).
Proof.
  intros Hty Htg. rewrite run_api_call.
  destruct (api req (remote w)) as [[r | e] rs] eqn:Hapi.
  - pose proof (handled_return api op w _ _ _ Hapi Htg) as Hh.
    unfold stored in Hh. destruct (type op); try congruence;
      rewrite set_db_sent in Hh; exact Hh.
  - apply handled_throw; assumption.
Qed.

Lemma processOperation_handled (op : SyncOperation) (w : World) :
  handled api op w (run (processOperation op) w).
Proof.
  unfold processOperation, processSessionOperation, processItemOperation,
    processDefectOperation.
  destruct (entityType op) eqn:Hety, (type op) eqn:Hty;
    try (rewrite <- Hety; exact (create_case_handled op _ w Hty));
    try (apply handled_skip; congruence);
    destruct (truthy (serverId op)) as [sid |] eqn:Hsid;
    try (apply handled_skip; congruence);
    apply addressed_handled; try congruence;
    unfold targets; rewrite Hty; eauto.
Qed.

End Run.

(** ** One replay, one drain *)

Section Drain.
Context {RS : Type} (api : Request -> RS -> Outcome * RS).

Abbreviation World := (World RS).
Abbreviation run := (run api).

Lemma run_replay (op : SyncOperation) (w : World) :
  run (replay op) w =
  match run (processOperation op) w with
  | (None, w') => (None, removed op w')
  | (Some e, w') => (None, failed op e w')
  end.
Proof.
  unfold replay. rewrite run_try_catch, run_seq.
  destruct (run (processOperation op) w) as [[e |] w']; [| reflexivity].
  unfold failed. cbn -[Nat.leb Nat.add].
  destruct (5 <=? attempts op)%nat; reflexivity.
Qed.

Lemma replay_never_throws (op : SyncOperation) (w : World) :
  fst (run (replay op) w) = None.
Proof.
  rewrite run_replay.
  destruct (run (processOperation op) w) as [[e |] w']; reflexivity.
Qed.

Lemma run_for_of_cons (op : SyncOperation) (l : list SyncOperation) (w : World) :
  run (for_of (op :: l) replay) w =
  run (for_of l replay) (snd (run (replay op) w)).
Proof.
  simpl. rewrite run_seq.
  pose proof (replay_never_throws op w) as H.
  destruct (run (replay op) w) as [[e |] w']; simpl in *; congruence.
Qed.

Lemma for_of_never_throws (l : list SyncOperation) (w : World) :
  fst (run (for_of l replay) w) = None.
Proof.
  revert w. induction l as [| op l IH]; intros w; [reflexivity |].
  rewrite run_for_of_cons. apply IH.
Qed.

Lemma run_for_of_app (l1 l2 : list SyncOperation) (w : World) :
  run (for_of (l1 ++ l2) replay) w =
  run (for_of l2 replay) (snd (run (for_of l1 replay) w)).
Proof.
  revert w. induction l1 as [| op l1 IH]; intros w; [reflexivity |].
  rewrite <- app_comm_cons, !run_for_of_cons. apply IH.
Qed.

(** A drain started through a callback whose [isSyncing] is [false]. *)
Lemma run_processQueue (w : World) :
  run (processQueue false) w =
  (None,
   end_drain (snd (run (for_of (orderBy_timestamp (syncQueue (db w))) replay)
                     (begin_drain w)))).
Proof.
  unfold processQueue. simpl. rewrite run_try_finally. simpl.
  unfold handle. simpl. fold (begin_drain w).
  pose proof (for_of_never_throws
                (orderBy_timestamp (syncQueue (db w))) (begin_drain w)) as H.
  change (syncQueue (db (begin_drain w))) with (syncQueue (db w)).
  destruct (run (for_of (orderBy_timestamp (syncQueue (db w))) replay)
              (begin_drain w)) as [[e |] w']; simpl in *; [congruence |].
  reflexivity.
Qed.

(** A drain started through a callback whose [isSyncing] is [true] does
    nothing. *)
Lemma run_processQueue_guarded (w : World) :
  run (processQueue true) w = (None, w).
Proof. reflexivity. Qed.

End Drain.

(** ** Consequences of the three endings *)

Section Handled.
Context {RS : Type} (api : Request -> RS -> Outcome * RS).

Abbreviation World := (World RS).
Abbreviation run := (run api).

Lemma truthy_Some (s : option string) (sid : string) :
  truthy s = Some sid -> s = Some sid /\ sid <> "".
Proof.
  destruct s as [[| a s'] |]; simpl; intros H; inversion H; subst.
  split; [reflexivity | discriminate].
Qed.

Lemma stored_queue (op : SyncOperation) (r : ApiResponse) (d : DB) :
  syncQueue (stored op r d) = syncQueue d.
Proof.
  unfold stored.
  destruct (type op); try reflexivity.
  destruct (success r && bool_decide (is_Some (rdata r))); try reflexivity.
  destruct (table (entityType op) d !! localId op); try reflexivity.
  destruct (entityType op); reflexivity.
Qed.

Lemma handled_queue (op : SyncOperation) (w : World) (res : option string * World) :
  handled api op w res -> syncQueue (db (snd res)) = syncQueue (db w).
Proof.
  intros H. destruct H; simpl; try reflexivity. apply stored_queue.
Qed.

Lemma handled_throw_db (op : SyncOperation) (w w' : World) (e : string) :
  handled api op w (Some e, w') -> db w' = db w.
Proof. intros H. inversion H; subst. reflexivity. Qed.

(** A handler adds nothing to the traffic, or one request and its
    settlement. *)
Lemma handled_log (op : SyncOperation) (w : World) (res : option string * World) :
  handled api op w res ->
  log (snd res) = log w \/
  exists req out,
    targets op req /\
    log (snd res) = (log w ++ [EvCall op req; EvReturn op out])%list.
Proof.
  intros H. destruct H as [Hty | req e rs Hapi Htg | req r rs Hapi Htg]; simpl.
  - left; reflexivity.
  - right. exists req, (Throws e). split; [exact Htg |].
    rewrite <- app_assoc. reflexivity.
  - right. exists req, (Returns r). split; [exact Htg |].
    rewrite <- app_assoc. reflexivity.
Qed.

Lemma replay_log (op : SyncOperation) (w : World) :
  log (snd (run (replay op) w)) = log (snd (run (processOperation op) w)).
Proof.
  rewrite run_replay.
  destruct (run (processOperation op) w) as [[e |] w']; simpl; [| reflexivity].
  unfold failed. destruct (5 <=? attempts op)%nat; reflexivity.
Qed.

(** A handler that has no call to make leaves the world as it is. *)
Lemma processOperation_unaddressed (op : SyncOperation) (w : World) :
  type op <> CREATE ->
  truthy (serverId op) = None ->
  run (processOperation op) w = (None, w).
Proof.
  intros Hty Hsid.
  unfold processOperation, processSessionOperation, processItemOperation,
    processDefectOperation.
  destruct (entityType op), (type op); try congruence;
    rewrite ?Hsid; reflexivity.
Qed.

Lemma processOperation_no_case (op : SyncOperation) (w : World) :
  (entityType op = item /\ type op = DELETE) \/
  (entityType op = defect /\ type op = UPDATE) ->
  run (processOperation op) w = (None, w).
Proof.
  intros [[Hety Hty] | [Hety Hty]];
    unfold processOperation, processItemOperation, processDefectOperation;
    rewrite Hety, Hty; reflexivity.
Qed.

Lemma queue_delete_gone (k : nat) (q : list SyncOperation) (o : SyncOperation) :
  o ∈ queue_delete k q -> op_id o <> k.
Proof. unfold queue_delete. rewrite list_elem_of_filter. tauto. Qed.

End Handled.

(** ** Operations that make no call *)

Section Unsent.
Context {RS : Type} (api : Request -> RS -> Outcome * RS).

Abbreviation World := (World RS).
Abbreviation run := (run api).

(** C1, as the code has it: an UPDATE or DELETE whose [serverId] field is
    absent (or empty) is never submitted to the remote collaborator when it
    is replayed; its attempt count is not touched, and the replay removes it
    from the queue as after a success. *)
Theorem C1_unaddressed_update_delete_is_dropped (op : SyncOperation) (w : World) :
  type op = UPDATE \/ type op = DELETE ->
  truthy (serverId op) = None ->
  run (replay op) w = (None, removed op w) /\
  log (snd (run (replay op) w)) = log w /\
  remote (snd (run (replay op) w)) = remote w /\
  syncQueue (db (snd (run (replay op) w))) =
    queue_delete (op_id op) (syncQueue (db w)) /\
  (forall o, o ∈ syncQueue (db (snd (run (replay op) w))) -> op_id o <> op_id op).
Proof.
  intros Hty Hsid.
  assert (Hrun : run (replay op) w = (None, removed op w)).
  { rewrite run_replay, processOperation_unaddressed; [reflexivity | | exact Hsid].
    destruct Hty as [-> | ->]; discriminate. }
  rewrite Hrun. simpl. repeat split; try reflexivity.
  intros o. apply queue_delete_gone.
Qed.

(** C9: a DELETE of an item and an UPDATE of a defect have no case in their
    handler: replaying one makes no remote call, changes no entity, and
    removes the operation from the queue as after a success. *)
Theorem C9_unhandled_pair_is_dropped (op : SyncOperation) (w : World) :
  (entityType op = item /\ type op = DELETE) \/
  (entityType op = defect /\ type op = UPDATE) ->
  run (replay op) w = (None, removed op w) /\
  log (snd (run (replay op) w)) = log w /\
  remote (snd (run (replay op) w)) = remote w /\
  syncQueue (db (snd (run (replay op) w))) =
    queue_delete (op_id op) (syncQueue (db w)) /\
  (forall o, o ∈ syncQueue (db (snd (run (replay op) w))) -> op_id o <> op_id op).
Proof.
  intros Hcase.
  assert (Hrun : run (replay op) w = (None, removed op w)).
  { rewrite run_replay, processOperation_no_case; [reflexivity | exact Hcase]. }
  rewrite Hrun. simpl. repeat split; try reflexivity.
  intros o. apply queue_delete_gone.
Qed.

End Unsent.

Lemma C1_unaddressed_update_delete_is_dropped_witness :
  run always_ok (replay update_op) (world pending_entity [update_op]) =
    (None, removed update_op (world pending_entity [update_op])) /\
  log (snd (run always_ok (replay update_op) (world pending_entity [update_op])))
    = [] /\
  remote (snd (run always_ok (replay update_op) (world pending_entity [update_op])))
    = 0 /\
  syncQueue
    (db (snd (run always_ok (replay update_op) (world pending_entity [update_op]))))
    = queue_delete 2 [update_op] /\
  (forall o,
     o ∈ syncQueue
           (db (snd (run always_ok (replay update_op)
                       (world pending_entity [update_op])))) ->
     op_id o <> 2).
Proof.
  apply (C1_unaddressed_update_delete_is_dropped always_ok update_op
           (world pending_entity [update_op])).
  - left; reflexivity.
  - reflexivity.
Defined.

(** The unresolved update is not kept for a later cycle: the drain leaves
    the queue empty, although nothing was sent. *)
Lemma C1_counterexample :
  update_op ∈ syncQueue (db (world pending_entity [update_op])) /\
  type update_op = UPDATE /\
  serverId update_op = None /\
  (sessions (db (world pending_entity [update_op])) !! "local-1" ≫= ent_id) = None /\
  log (snd (run always_ok (processQueue false) (world pending_entity [update_op])))
    = [] /\
  ~ (exists o,
       o ∈ syncQueue
             (db (snd (run always_ok (processQueue false)
                         (world pending_entity [update_op]))))
       /\ op_id o = op_id update_op).
Proof.
  split; [apply list_elem_of_here |].
  do 4 (split; [vm_compute; reflexivity |]).
  assert (Hq : syncQueue
                 (db (snd (run always_ok (processQueue false)
                             (world pending_entity [update_op])))) = [])
    by (vm_compute; reflexivity).
  rewrite Hq. intros (o & Ho & _). apply elem_of_nil in Ho. exact Ho.
Qed.

Lemma C9_unhandled_pair_is_dropped_witness :
  run always_ok (replay item_delete_op) (world pending_entity [item_delete_op]) =
    (None, removed item_delete_op
             (world pending_entity [item_delete_op])) /\
  log (snd (run always_ok (replay item_delete_op)
              (world pending_entity [item_delete_op]))) = [] /\
  remote (snd (run always_ok (replay item_delete_op)
                 (world pending_entity [item_delete_op]))) = 0 /\
  syncQueue
    (db (snd (run always_ok (replay item_delete_op)
                (world pending_entity [item_delete_op]))))
    = queue_delete 3 [item_delete_op] /\
  (forall o,
     o ∈ syncQueue
           (db (snd (run always_ok (replay item_delete_op)
                       (world pending_entity [item_delete_op])))) ->
     op_id o <> 3).
Proof.
  apply (C9_unhandled_pair_is_dropped always_ok item_delete_op
           (world pending_entity [item_delete_op])).
  left; split; reflexivity.
Defined.

(** ** Creations that bind nothing, replays that fail *)

Section Outcomes.
Context {RS : Type} (api : Request -> RS -> Outcome * RS).

Abbreviation World := (World RS).
Abbreviation run := (run api).

Lemma stored_unbound (op : SyncOperation) (r : ApiResponse) (d : DB) :
  success r = false \/ rdata r = None \/
    table (entityType op) d !! localId op = None ->
  stored op r d = d.
Proof.
  intros H. unfold stored. destruct (type op); try reflexivity.
  destruct (success r && bool_decide (is_Some (rdata r))) eqn:E; [| reflexivity].
  apply andb_true_iff in E. destruct E as [E1 E2].
  apply bool_decide_eq_true in E2.
  destruct H as [H | [H | H]].
  - congruence.
  - rewrite H in E2. destruct E2 as [x Hx]. discriminate.
  - rewrite H. reflexivity.
Qed.

(** C10: a CREATE whose call returns (does not throw) a response with
    [success] false or without data, or whose entity is not in its table,
    is still removed from the queue; no identifier is bound and no entity is
    marked [synced]: the three tables are as before. *)
Theorem C10_create_without_binding (op : SyncOperation) (w : World)
    (req : Request) (r : ApiResponse) :
  type op = CREATE ->
  log (snd (run (replay op) w)) =
    (log w ++ [EvCall op req; EvReturn op (Returns r)])%list ->
  success r = false \/ rdata r = None \/
    table (entityType op) (db w) !! localId op = None ->
  syncQueue (db (snd (run (replay op) w))) =
    queue_delete (op_id op) (syncQueue (db w)) /\
  (forall o, o ∈ syncQueue (db (snd (run (replay op) w))) -> op_id o <> op_id op) /\
  sessions (db (snd (run (replay op) w))) = sessions (db w) /\
  items (db (snd (run (replay op) w))) = items (db w) /\
  defects (db (snd (run (replay op) w))) = defects (db w).
Proof.
  intros Hty Hlog Hbad.
  rewrite replay_log in Hlog. rewrite run_replay.
  pose proof (processOperation_handled api op w) as Hh.
  destruct (run (processOperation op) w) as [res w1].
  inversion Hh as [Hne | req0 e rs Hapi Htg | req0 r0 rs Hapi Htg]; subst.
  - congruence.
  - simpl in Hlog. rewrite <- app_assoc in Hlog.
    apply app_inv_head in Hlog. simpl in Hlog. congruence.
  - simpl in Hlog. rewrite <- app_assoc in Hlog.
    apply app_inv_head in Hlog. simpl in Hlog.
    assert (r0 = r) by congruence. subst r0.
    rewrite (stored_unbound op r (db w) Hbad). simpl.
    repeat split; try reflexivity.
    intros o. apply queue_delete_gone.
Qed.

(** C4, as the code has it: a replay that fails, below the ceiling or at
    it, writes to the queue only. The entity keeps the identifier and the
    sync status it had: it is not set to [error], not rolled back and not
    marked [synced]. *)
Theorem C4_failed_replay_leaves_entities (op : SyncOperation) (w : World)
    (e : string) :
  fst (run (processOperation op) w) = Some e ->
  sessions (db (snd (run (replay op) w))) = sessions (db w) /\
  items (db (snd (run (replay op) w))) = items (db w) /\
  defects (db (snd (run (replay op) w))) = defects (db w).
Proof.
  intros Hthrow. rewrite run_replay.
  pose proof (processOperation_handled api op w) as Hh.
  destruct (run (processOperation op) w) as [res w1]. simpl in Hthrow. subst res.
  apply handled_throw_db in Hh.
  unfold failed. destruct (5 <=? attempts op)%nat; simpl; rewrite Hh; auto.
Qed.

(** What a failed replay does to the queue. *)
Lemma failed_replay_queue (op : SyncOperation) (w : World) (e : string) :
  fst (run (processOperation op) w) = Some e ->
  syncQueue (db (snd (run (replay op) w))) =
    if (5 <=? attempts op)%nat
    then queue_delete (op_id op)
           (queue_update (op_id op) (attempts op + 1) e (syncQueue (db w)))
    else queue_update (op_id op) (attempts op + 1) e (syncQueue (db w)).
Proof.
  intros Hthrow. rewrite run_replay.
  pose proof (processOperation_handled api op w) as Hh.
  destruct (run (processOperation op) w) as [res w1]. simpl in Hthrow. subst res.
  apply handled_throw_db in Hh.
  unfold failed. destruct (5 <=? attempts op)%nat; simpl; rewrite Hh; auto.
Qed.

Lemma run_addToQueue (isOnline : bool) (pq : Prog) (now : Z) (ty : OpType)
    (ety : EntityType) (lid : string) (dat : Payload) (sid : option string)
    (w : World) :
  syncQueue (db (snd (run (addToQueue isOnline pq now ty ety lid dat sid) w))) =
  (syncQueue (db w) ++
   [{| op_id := nextId (db w); type := ty; entityType := ety; localId := lid;
       serverId := sid; data := dat; timestamp := now; attempts := 0;
       lastError := None |}])%list.
Proof. unfold addToQueue. destruct isOnline; reflexivity. Qed.

(** C3, as the code has it: the identifier an UPDATE or DELETE is sent to
    is the [serverId] the operation was enqueued with. Whatever the tables
    hold when the row is replayed, every request the replay adds to the
    traffic is addressed to that identifier; a row enqueued without one
    sends nothing. *)
Theorem C3_replay_addresses_enqueued_serverId (isOnline : bool) (pq : Prog)
    (now : Z) (ty : OpType) (ety : EntityType) (lid : string) (dat : Payload)
    (sid : option string) (w0 : World) :
  ty = UPDATE \/ ty = DELETE ->
  let row := {| op_id := nextId (db w0); type := ty; entityType := ety;
                localId := lid; serverId := sid; data := dat; timestamp := now;
                attempts := 0; lastError := None |} in
  syncQueue (db (snd (run (addToQueue isOnline pq now ty ety lid dat sid) w0))) =
    (syncQueue (db w0) ++ [row])%list /\
  forall (w : World) (op' : SyncOperation) (req : Request),
    EvCall op' req ∈ log (snd (run (replay row) w)) ->
    EvCall op' req ∈ log w \/
    (op' = row /\
     exists prefix s, sid = Some s /\ s <> "" /\ url_of req = prefix +:+ s).
Proof.
  intros Hty row. split; [apply run_addToQueue |].
  intros w op' req Hin. rewrite replay_log in Hin.
  pose proof (processOperation_handled api row w) as Hh.
  apply handled_log in Hh.
  destruct Hh as [Hlog | (req0 & out & Htg & Hlog)]; rewrite Hlog in Hin.
  - left; exact Hin.
  - rewrite elem_of_app in Hin. destruct Hin as [Hin | Hin]; [left; exact Hin |].
    right. rewrite elem_of_cons, list_elem_of_singleton in Hin.
    destruct Hin as [Heq | Heq]; [| discriminate].
    inversion Heq; subst op' req0. split; [reflexivity |].
    unfold targets in Htg. simpl in Htg.
    destruct Hty as [-> | ->];
      destruct Htg as (prefix & s & Htr & ->);
      apply truthy_Some in Htr; destruct Htr as [-> Hne];
      exists prefix, s; auto.
Qed.

End Outcomes.

Lemma C10_create_without_binding_witness :
  syncQueue (db (snd (run always_refuses (replay create_op)
                        (world pending_entity [create_op])))) =
    queue_delete 1 [create_op] /\
  (forall o,
     o ∈ syncQueue (db (snd (run always_refuses (replay create_op)
                               (world pending_entity [create_op])))) ->
     op_id o <> 1) /\
  sessions (db (snd (run always_refuses (replay create_op)
                       (world pending_entity [create_op])))) =
    {["local-1" := pending_entity]} /\
  items (db (snd (run always_refuses (replay create_op)
                    (world pending_entity [create_op])))) = ∅ /\
  defects (db (snd (run always_refuses (replay create_op)
                      (world pending_entity [create_op])))) = ∅.
Proof.
  apply (C10_create_without_binding always_refuses create_op
           (world pending_entity [create_op])
           (api_post "/sessions" [("productId", "p-1")])
           {| success := false; rdata := None |}).
  - reflexivity.
  - reflexivity.
  - left; reflexivity.
Defined.

Lemma C4_failed_replay_leaves_entities_witness :
  sessions (db (snd (run always_fails (replay create_op)
                       (world pending_entity [create_op])))) =
    {["local-1" := pending_entity]} /\
  items (db (snd (run always_fails (replay create_op)
                    (world pending_entity [create_op])))) = ∅ /\
  defects (db (snd (run always_fails (replay create_op)
                      (world pending_entity [create_op])))) = ∅.
Proof.
  apply (C4_failed_replay_leaves_entities always_fails create_op
           (world pending_entity [create_op]) "Error: Network Error").
  reflexivity.
Defined.

(** A failed attempt below the ceiling leaves the entity [pending]. *)
Lemma C4_counterexample :
  attempts create_op < 5 /\
  fst (run always_fails (processOperation create_op)
         (world pending_entity [create_op])) = Some "Error: Network Error" /\
  (syncStatus <$>
     sessions (db (snd (run always_fails (processQueue false)
                          (world pending_entity [create_op])))) !! "local-1")
    = Some pending /\
  (syncStatus <$>
     sessions (db (snd (run always_fails (processQueue false)
                          (world pending_entity [create_op])))) !! "local-1")
    <> Some error.
Proof.
  split; [vm_compute; lia |].
  split; [vm_compute; reflexivity |].
  split; [vm_compute; reflexivity |].
  vm_compute. discriminate.
Qed.

Lemma C3_replay_addresses_enqueued_serverId_witness :
  syncQueue (db (snd (run always_ok
                        (addToQueue false (processQueue false) 2000 UPDATE session
                           "local-1" [("status", "CLOSED")] None)
                        (world pending_entity [create_op])))) =
    [create_op;
     {| op_id := 10; type := UPDATE; entityType := session; localId := "local-1";
        serverId := None; data := [("status", "CLOSED")]; timestamp := 2000;
        attempts := 0; lastError := None |}] /\
  forall (w : World nat) (op' : SyncOperation) (req : Request),
    EvCall op' req ∈
      log (snd (run always_ok
                  (replay {| op_id := 10; type := UPDATE; entityType := session;
                             localId := "local-1"; serverId := None;
                             data := [("status", "CLOSED")]; timestamp := 2000;
                             attempts := 0; lastError := None |}) w)) ->
    EvCall op' req ∈ log w \/
    (op' = {| op_id := 10; type := UPDATE; entityType := session;
              localId := "local-1"; serverId := None;
              data := [("status", "CLOSED")]; timestamp := 2000;
              attempts := 0; lastError := None |} /\
     exists prefix s, None = Some s /\ s <> "" /\ url_of req = prefix +:+ s).
Proof.
  apply (C3_replay_addresses_enqueued_serverId always_ok false
           (processQueue false) 2000 UPDATE session "local-1"
           [("status", "CLOSED")] None (world pending_entity [create_op])).
  left; reflexivity.
Defined.

(** The session is created and bound to [srv-1] before the update is
    replayed in the same drain, and still no update is sent. *)
Lemma C3_counterexample :
  serverId update_op = None /\
  (sessions (db (snd (run always_ok (replay create_op)
                        (world pending_entity [create_op; update_op]))))
     !! "local-1" ≫= ent_id) = Some "srv-1" /\
  syncQueue (db (snd (run always_ok (processQueue false)
                        (world pending_entity [create_op; update_op])))) = [] /\
  forall req,
    ~ EvCall update_op req ∈
        log (snd (run always_ok (processQueue false)
                    (world pending_entity [create_op; update_op]))).
Proof.
  do 3 (split; [vm_compute; reflexivity |]).
  assert (Hlog :
    log (snd (run always_ok (processQueue false)
                (world pending_entity [create_op; update_op]))) =
    [EvCall create_op (api_post "/sessions" [("productId", "p-1")]);
     EvReturn create_op
       (Returns {| success := true; rdata := Some [("id", "srv-1")] |})])
    by (vm_compute; reflexivity).
  rewrite Hlog. intros req.
  rewrite !elem_of_cons, elem_of_nil. intros [H | [H | []]]; discriminate.
Qed.

(** C2, on the code: five consecutive failed drains leave the operation
    queued, with five attempts recorded; it is the sixth failure that
    removes it. *)
Theorem C2_five_failures_keep_the_operation :
  syncQueue (db (drains always_fails 5 (world pending_entity [create_op]))) =
    [set_attempt 5 "Error: Network Error" create_op] /\
  syncQueue (db (drains always_fails 6 (world pending_entity [create_op]))) = [].
Proof. split; vm_compute; reflexivity. Qed.

(** ** The order and the shape of the traffic of a drain *)

Lemma op_le_spec (a b : SyncOperation) :
  op_le a b <->
  (timestamp a < timestamp b)%Z \/
  (timestamp a = timestamp b /\ op_id a <= op_id b).
Proof.
  unfold op_le, op_leb.
  rewrite Is_true_true, orb_true_iff, andb_true_iff, Z.ltb_lt, Z.eqb_eq,
    Nat.leb_le.
  reflexivity.
Qed.

#[global] Instance op_le_total : Total op_le.
Proof. intros a b. rewrite !op_le_spec. lia. Qed.

#[global] Instance op_le_trans : Transitive op_le.
Proof. intros a b c. rewrite !op_le_spec. lia. Qed.

Lemma op_le_by_timestamp (a b : SyncOperation) : op_le a b -> by_timestamp a b.
Proof. rewrite op_le_spec. unfold by_timestamp. lia. Qed.

Lemma StronglySorted_sublist {A : Type} (R : relation A) (k l : list A) :
  k `sublist_of` l -> StronglySorted R l -> StronglySorted R k.
Proof.
  induction 1 as [| x k l Hsub IH | x k l Hsub IH]; intros Hs.
  - constructor.
  - apply StronglySorted_cons in Hs. destruct Hs as [Hall Hs].
    apply StronglySorted_cons. split; [| auto].
    rewrite Forall_forall in *. intros y Hy. apply Hall.
    eapply elem_of_sublist; eassumption.
  - apply StronglySorted_cons in Hs. destruct Hs as [_ Hs]. auto.
Qed.

Lemma StronglySorted_weaken {A : Type} (R S : relation A) (l : list A) :
  (forall a b, R a b -> S a b) -> StronglySorted R l -> StronglySorted S l.
Proof.
  intros HRS. induction 1 as [| x l Hs IH Hall]; constructor; [exact IH |].
  eapply Forall_impl; [exact Hall | auto].
Qed.

Lemma orderBy_timestamp_sorted (q : list SyncOperation) :
  StronglySorted by_timestamp (orderBy_timestamp q).
Proof.
  apply (StronglySorted_weaken op_le); [exact op_le_by_timestamp |].
  apply StronglySorted_merge_sort; apply _.
Qed.

Section Traffic.
Context {RS : Type} (api : Request -> RS -> Outcome * RS).

Abbreviation World := (World RS).
Abbreviation run := (run api).

Lemma replay_trace (op : SyncOperation) (w : World) :
  exists tr,
    log (snd (run (replay op) w)) = (log w ++ tr)%list /\
    (tr = [] \/ exists req out, tr = [EvCall op req; EvReturn op out]).
Proof.
  rewrite replay_log.
  pose proof (processOperation_handled api op w) as Hh.
  apply handled_log in Hh.
  destruct Hh as [Hlog | (req & out & _ & Hlog)].
  - exists []. rewrite app_nil_r. auto.
  - exists [EvCall op req; EvReturn op out]. eauto.
Qed.

Lemma for_of_trace (l : list SyncOperation) (w : World) :
  exists tr,
    log (snd (run (for_of l replay) w)) = (log w ++ tr)%list /\
    serial tr /\
    submitted tr `sublist_of` l.
Proof.
  revert w. induction l as [| op l IH]; intros w.
  - exists []. simpl. rewrite app_nil_r. repeat split. constructor.
  - rewrite run_for_of_cons.
    destruct (replay_trace op w) as (tr1 & Hlog1 & Hshape).
    destruct (IH (snd (run (replay op) w))) as (tr2 & Hlog2 & Hser & Hsub).
    exists (tr1 ++ tr2)%list. rewrite Hlog2, Hlog1, <- app_assoc.
    split; [reflexivity |].
    destruct Hshape as [-> | (req & out & ->)]; simpl.
    + split; [exact Hser | apply sublist_cons; exact Hsub].
    + split; [auto | apply sublist_skip; exact Hsub].
Qed.

Lemma submitted_app (tr1 tr2 : list Event) :
  submitted (tr1 ++ tr2) = (submitted tr1 ++ submitted tr2)%list.
Proof.
  induction tr1 as [| [op req | op out] tr1 IH]; simpl; [reflexivity | |].
  - rewrite IH. reflexivity.
  - exact IH.
Qed.

Lemma processOperation_addressed (op : SyncOperation) :
  type op <> CREATE ->
  has_request op = true ->
  exists req, processOperation op = api_call op req (fun _ => Done).
Proof.
  intros Hty Hreq.
  unfold has_request in Hreq.
  unfold processOperation, processSessionOperation, processItemOperation,
    processDefectOperation.
  destruct (type op), (entityType op); try congruence;
    apply bool_decide_eq_true in Hreq; destruct Hreq as [sid Hsid];
    rewrite Hsid; eexists; reflexivity.
Qed.

Lemma processOperation_nothing (op : SyncOperation) (w : World) :
  has_request op = false ->
  run (processOperation op) w = (None, w).
Proof.
  intros Hreq. unfold has_request in Hreq.
  destruct (type op) eqn:Hty, (entityType op) eqn:Hety; try discriminate;
    try (apply processOperation_no_case; tauto);
    (apply processOperation_unaddressed; [congruence |];
     apply bool_decide_eq_false in Hreq;
     destruct (truthy (serverId op));
     [exfalso; apply Hreq; eauto | reflexivity]).
Qed.

(** The traffic of one replay: the request of the operation and its
    settlement if the handler has a request to make, nothing otherwise. *)
Lemma replay_submitted (op : SyncOperation) (w : World) :
  exists tr,
    log (snd (run (replay op) w)) = (log w ++ tr)%list /\
    submitted tr = if has_request op then [op] else [].
Proof.
  rewrite replay_log. destruct (has_request op) eqn:Hreq.
  - destruct (decide (type op = CREATE)) as [Hty | Hty].
    + pose proof (processOperation_handled api op w) as Hh.
      destruct Hh as [Hne | req e rs Hapi Htg | req r rs Hapi Htg];
        [congruence | |].
      * exists [EvCall op req; EvReturn op (Throws e)]. simpl.
        rewrite <- app_assoc. auto.
      * exists [EvCall op req; EvReturn op (Returns r)]. simpl.
        rewrite <- app_assoc. auto.
    + destruct (processOperation_addressed op Hty Hreq) as [req ->].
      rewrite run_api_call.
      destruct (api req (remote w)) as [[r | e] rs].
      * exists [EvCall op req; EvReturn op (Returns r)]. simpl.
        rewrite <- app_assoc. auto.
      * exists [EvCall op req; EvReturn op (Throws e)]. simpl.
        rewrite <- app_assoc. auto.
  - rewrite (processOperation_nothing op w Hreq). exists []. simpl.
    rewrite app_nil_r. auto.
Qed.

Lemma for_of_submitted (l : list SyncOperation) (w : World) :
  exists tr,
    log (snd (run (for_of l replay) w)) = (log w ++ tr)%list /\
    submitted tr = filter (fun op => has_request op = true) l.
Proof.
  revert w. induction l as [| op l IH]; intros w.
  - exists []. simpl. rewrite app_nil_r. auto.
  - rewrite run_for_of_cons.
    destruct (replay_submitted op w) as (tr1 & Hlog1 & Hsub1).
    destruct (IH (snd (run (replay op) w))) as (tr2 & Hlog2 & Hsub2).
    exists (tr1 ++ tr2)%list. rewrite Hlog2, Hlog1, <- app_assoc.
    split; [reflexivity |].
    rewrite submitted_app, Hsub1, Hsub2.
    destruct (has_request op) eqn:Hreq.
    + rewrite filter_cons_True by exact Hreq. reflexivity.
    + rewrite filter_cons_False by congruence. reflexivity.
Qed.

(** A drain that runs alone submits exactly the operations of its snapshot
    that have a request to make, each once and in the order of the snapshot,
    which is by non-decreasing timestamp. *)
Theorem drain_submits_snapshot_in_order (w : World) :
  exists tr,
    log (snd (run (processQueue false) w)) = (log w ++ tr)%list /\
    submitted tr =
      filter (fun op => has_request op = true)
        (orderBy_timestamp (syncQueue (db w))) /\
    StronglySorted by_timestamp (submitted tr).
Proof.
  rewrite run_processQueue.
  destruct (for_of_submitted (orderBy_timestamp (syncQueue (db w)))
              (begin_drain w)) as (tr & Hlog & Hsub).
  exists tr. split; [exact Hlog |]. split; [exact Hsub |].
  rewrite Hsub.
  eapply StronglySorted_sublist;
    [apply sublist_filter | apply orderBy_timestamp_sorted].
Qed.

(** ** Frame of a replay on the queue *)

Lemma queue_delete_update (k a : nat) (e : string) (q : list SyncOperation) :
  queue_delete k (queue_update k a e q) = queue_delete k q.
Proof.
  unfold queue_delete, queue_update.
  induction q as [| o q IH]; [reflexivity |].
  rewrite fmap_cons. destruct (decide (op_id o = k)) as [Heq | Hne].
  - rewrite !filter_cons_False; [exact IH | | ]; simpl; tauto.
  - rewrite !filter_cons_True; [| assumption | assumption]. f_equal. exact IH.
Qed.

Lemma queue_delete_idemp (k : nat) (q : list SyncOperation) :
  queue_delete k (queue_delete k q) = queue_delete k q.
Proof.
  unfold queue_delete. rewrite list_filter_filter.
  apply list_filter_iff. tauto.
Qed.

Lemma replay_frame (op : SyncOperation) (w : World) :
  queue_delete (op_id op) (syncQueue (db (snd (run (replay op) w)))) =
  queue_delete (op_id op) (syncQueue (db w)).
Proof.
  rewrite run_replay.
  pose proof (processOperation_handled api op w) as Hh.
  apply handled_queue in Hh.
  destruct (run (processOperation op) w) as [[e |] w1]; simpl in *.
  - unfold failed. destruct (5 <=? attempts op)%nat; simpl;
      rewrite ?queue_delete_idemp, queue_delete_update, Hh; reflexivity.
  - rewrite queue_delete_idemp, Hh. reflexivity.
Qed.

(** C8: the loop goes on to the rest of the snapshot whatever became of an
    operation and of those before it, and a replay, failed or not, leaves
    the rows of all other operations exactly as they were. *)
Theorem C8_no_fail_fast_and_frame (l1 l2 : list SyncOperation)
    (op : SyncOperation) (w : World) :
  run (for_of (l1 ++ op :: l2) replay) w =
    run (for_of l2 replay)
      (snd (run (replay op) (snd (run (for_of l1 replay) w)))) /\
  fst (run (replay op) (snd (run (for_of l1 replay) w))) = None /\
  forall w1 : World,
    queue_delete (op_id op) (syncQueue (db (snd (run (replay op) w1)))) =
      queue_delete (op_id op) (syncQueue (db w1)) /\
    forall o, op_id o <> op_id op ->
      (o ∈ syncQueue (db (snd (run (replay op) w1))) <-> o ∈ syncQueue (db w1)).
Proof.
  split; [rewrite run_for_of_app, run_for_of_cons; reflexivity |].
  split; [apply replay_never_throws |].
  intros w1. pose proof (replay_frame op w1) as Hf.
  split; [exact Hf |].
  intros o Hne.
  assert (Hin : forall q, o ∈ queue_delete (op_id op) q <-> o ∈ q).
  { intros q. unfold queue_delete. rewrite list_elem_of_filter. tauto. }
  rewrite <- (Hin (syncQueue (db (snd (run (replay op) w1))))), Hf.
  apply Hin.
Qed.

End Traffic.

Section Success.
Context {RS : Type} (api : Request -> RS -> Outcome * RS).
Hypothesis api_succeeds : succeeds api.

Abbreviation World := (World RS).
Abbreviation run := (run api).

Lemma table_set_table (t t' : EntityType) (m : gmap string LocalEntity) (d : DB) :
  table t (set_table t' m d) = if decide (t = t') then m else table t d.
Proof. destruct t, t'; reflexivity. Qed.

Lemma handled_succeeds (op : SyncOperation) (w w1 : World) (res : option string) :
  handled api op w (res, w1) -> res = None.
Proof.
  intros H. inversion H as [| req e rs Hapi Htg |]; subst; try reflexivity.
  destruct (api_succeeds req (remote w)) as (r & Hr & _).
  rewrite Hapi in Hr. discriminate.
Qed.

Lemma stored_present (op : SyncOperation) (r : ApiResponse) (d : DB)
    (t : EntityType) (lid : string) :
  is_Some (table t d !! lid) -> is_Some (table t (stored op r d) !! lid).
Proof.
  intros Hp. unfold stored. destruct (type op); try exact Hp.
  destruct (success r && bool_decide (is_Some (rdata r))); try exact Hp.
  destruct (table (entityType op) d !! localId op); try exact Hp.
  rewrite table_set_table. destruct (decide (t = entityType op)) as [-> |];
    [| exact Hp].
  rewrite lookup_alter. destruct (decide (localId op = lid)) as [-> |];
    [| exact Hp].
  destruct Hp as [x ->]. eexists; reflexivity.
Qed.

Lemma handled_present (op : SyncOperation) (w : World)
    (res : option string * World) (t : EntityType) (lid : string) :
  handled api op w res ->
  is_Some (table t (db w) !! lid) -> is_Some (table t (db (snd res)) !! lid).
Proof.
  intros H Hp. destruct H; simpl; try exact Hp. apply stored_present, Hp.
Qed.

Lemma log_sent (op : SyncOperation) (req : Request) (out : Outcome) (rs : RS)
    (w : World) (ev : Event) :
  ev ∈ log (sent op req out rs w) <->
  ev ∈ log w \/ ev = EvCall op req \/ ev = EvReturn op out.
Proof.
  simpl. rewrite !elem_of_app, !list_elem_of_singleton. tauto.
Qed.

Lemma handled_bound (op : SyncOperation) (w : World)
    (res : option string * World) (t : EntityType) (lid : string) :
  handled api op w res ->
  bound t lid w -> bound t lid (snd res).
Proof.
  intros H Hb. destruct H as [| req e rs Hapi Htg | req r rs Hapi Htg]; simpl.
  - exact Hb.
  - destruct Hb as (e0 & sid & o & r & Hget & Hst & Hid & Hlog & Hrest).
    exists e0, sid, o, r. repeat split; try tauto.
    apply log_sent. left. exact Hlog.
  - destruct Hb as (e0 & sid & o & r0 & Hget & Hst & Hid & Hlog & Hrest).
    assert (Hkeep : bound t lid
              (set_db (db w) (sent op req (Returns r) rs w))).
    { exists e0, sid, o, r0. repeat split; try tauto.
      apply log_sent. left. exact Hlog. }
    unfold stored. destruct (type op) eqn:Hty; try exact Hkeep.
    destruct (success r && bool_decide (is_Some (rdata r))) eqn:Hok;
      try exact Hkeep.
    destruct (table (entityType op) (db w) !! localId op) eqn:Hop;
      try exact Hkeep.
    destruct (decide (t = entityType op)) as [-> | Hne_t].
    + destruct (decide (localId op = lid)) as [<- | Hne_l].
      * destruct (api_succeeds req (remote w)) as (r' & Hr' & Hpost).
        rewrite Hapi in Hr'. simpl in Hr'. inversion Hr'; subst r'.
        unfold targets in Htg. rewrite Hty in Htg. destruct Htg as [u ->].
        destruct (Hpost u (data op) eq_refl) as (_ & dd & sid' & Hdd & Hsid').
        exists (bind_entity (Some sid') synced e0), sid', op, r.
        simpl. rewrite table_set_table, decide_True by reflexivity.
        rewrite lookup_alter, decide_True by reflexivity.
        rewrite Hget, Hdd. simpl. rewrite Hsid'.
        repeat split; try assumption; try reflexivity.
        rewrite !elem_of_app, !list_elem_of_singleton. auto.
      * exists e0, sid, o, r0. simpl.
        rewrite table_set_table, decide_True by reflexivity.
        rewrite lookup_alter, decide_False by assumption.
        repeat split; try tauto.
        rewrite !elem_of_app. auto.
    + exists e0, sid, o, r0. simpl.
      rewrite table_set_table, decide_False by assumption.
      repeat split; try tauto.
      rewrite !elem_of_app. auto.
Qed.

Lemma handled_binds (op : SyncOperation) (w : World) (res : option string * World) :
  handled api op w res ->
  type op = CREATE ->
  is_Some (table (entityType op) (db w) !! localId op) ->
  bound (entityType op) (localId op) (snd res).
Proof.
  intros H Hty [e0 Hget].
  destruct H as [Hne | req e rs Hapi Htg | req r rs Hapi Htg]; simpl.
  - congruence.
  - destruct (api_succeeds req (remote w)) as (r & Hr & _).
    rewrite Hapi in Hr. discriminate.
  - destruct (api_succeeds req (remote w)) as (r' & Hr' & Hpost).
    rewrite Hapi in Hr'. simpl in Hr'. inversion Hr'; subst r'.
    unfold targets in Htg. rewrite Hty in Htg. destruct Htg as [u ->].
    destruct (Hpost u (data op) eq_refl) as (Hsucc & dd & sid' & Hdd & Hsid').
    unfold stored. rewrite Hty, Hsucc, Hdd, Hget. simpl.
    exists (bind_entity (Some sid') synced e0), sid', op, r.
    simpl. rewrite table_set_table, decide_True by reflexivity.
    rewrite lookup_alter, decide_True by reflexivity.
    rewrite Hget, Hdd. simpl. rewrite Hsid'.
    repeat split; try assumption; try reflexivity.
    rewrite !elem_of_app, !list_elem_of_singleton. auto.
Qed.

End Success.

Section SuccessDrain.
Context {RS : Type} (api : Request -> RS -> Outcome * RS).
Hypothesis api_succeeds : succeeds api.

Abbreviation World := (World RS).
Abbreviation run := (run api).

Lemma replay_succeeds (op : SyncOperation) (w : World) :
  snd (run (replay op) w) = removed op (snd (run (processOperation op) w)).
Proof.
  rewrite run_replay.
  pose proof (processOperation_handled api op w) as Hh.
  destruct (run (processOperation op) w) as [res w1].
  apply (handled_succeeds api api_succeeds) in Hh. subst res. reflexivity.
Qed.

Lemma table_removed (t : EntityType) (op : SyncOperation) (w : World) :
  table t (db (removed op w)) = table t (db w).
Proof. destruct t; reflexivity. Qed.

Lemma bound_removed (t : EntityType) (lid : string) (op : SyncOperation)
    (w : World) :
  bound t lid w -> bound t lid (removed op w).
Proof.
  unfold bound. rewrite table_removed. tauto.
Qed.

Lemma filter_none {A : Type} (P : A -> Prop) `{!forall x, Decision (P x)}
    (l : list A) :
  (forall x, x ∈ l -> ~ P x) -> filter P l = [].
Proof.
  induction l as [| x l IH]; intros Hall; [reflexivity |].
  rewrite filter_cons_False by (apply Hall; left).
  apply IH. intros y Hy. apply Hall. right. exact Hy.
Qed.

Lemma for_of_queue (l : list SyncOperation) (w : World) :
  syncQueue (db (snd (run (for_of l replay) w))) =
  filter (fun o => op_id o ∉ op_id <$> l) (syncQueue (db w)).
Proof.
  revert w. induction l as [| op l IH]; intros w.
  - simpl. symmetry. induction (syncQueue (db w)) as [| o q IHq];
      [reflexivity |].
    rewrite filter_cons_True by (apply not_elem_of_nil). f_equal. exact IHq.
  - rewrite run_for_of_cons, IH, replay_succeeds.
    pose proof (processOperation_handled api op w) as Hh.
    apply handled_queue in Hh.
    change (syncQueue (db (removed op (snd (run (processOperation op) w)))))
      with (queue_delete (op_id op)
              (syncQueue (db (snd (run (processOperation op) w))))).
    rewrite Hh. unfold queue_delete. rewrite list_filter_filter.
    apply list_filter_iff. intros o. rewrite fmap_cons, not_elem_of_cons. tauto.
Qed.

Lemma for_of_bound (l : list SyncOperation) (w : World) (t : EntityType)
    (lid : string) :
  bound t lid w \/
  (is_Some (table t (db w) !! lid) /\
   exists op, op ∈ l /\ type op = CREATE /\ entityType op = t /\ localId op = lid) ->
  bound t lid (snd (run (for_of l replay) w)).
Proof.
  revert w. induction l as [| op l IH]; intros w H.
  - destruct H as [Hb | (_ & op & Hin & _)]; [exact Hb |].
    apply elem_of_nil in Hin. contradiction.
  - rewrite run_for_of_cons, replay_succeeds. apply IH.
    pose proof (processOperation_handled api op w) as Hh.
    destruct H as [Hb | (Hp & op' & Hin & Hty & Hety & Hlid)].
    + left. apply bound_removed. eapply (handled_bound api); eassumption.
    + apply elem_of_cons in Hin. destruct Hin as [-> | Hin].
      * left. apply bound_removed. subst t lid.
        eapply (handled_binds api); eassumption.
      * right. split; [| eauto].
        rewrite table_removed. eapply (handled_present api); eassumption.
Qed.

Lemma drain_succeeds (w : World) :
  syncQueue (db (snd (run (processQueue false) w))) = [] /\
  forall op,
    op ∈ syncQueue (db w) ->
    type op = CREATE ->
    is_Some (table (entityType op) (db w) !! localId op) ->
    bound (entityType op) (localId op) (snd (run (processQueue false) w)).
Proof.
  rewrite run_processQueue. simpl. split.
  - rewrite for_of_queue. apply filter_none. intros o Ho Hnot.
    apply Hnot. apply list_elem_of_fmap_2.
    unfold orderBy_timestamp. rewrite merge_sort_Permutation. exact Ho.
  - intros op Hin Hty Hp.
    pose proof (for_of_bound (orderBy_timestamp (syncQueue (db w)))
                  (begin_drain w) (entityType op) (localId op)) as Hb.
    apply Hb. right. split; [exact Hp |].
    exists op. repeat split; try assumption.
    unfold orderBy_timestamp. rewrite merge_sort_Permutation. exact Hin.
Qed.

End SuccessDrain.

Lemma always_ok_succeeds : succeeds always_ok.
Proof.
  intros req rs. eexists. split; [reflexivity |].
  intros u b _. split; [reflexivity |]. eexists _, _. split; reflexivity.
Qed.

(** An edited session with only an UPDATE queued: the update is sent and
    accepted, the queue empties, and the session is still [pending]. *)
Lemma C5_counterexample :
  succeeds always_ok /\
  update_known_op ∈ syncQueue (db (world edited_entity [update_known_op])) /\
  log (snd (run always_ok (processQueue false)
              (world edited_entity [update_known_op]))) =
    [EvCall update_known_op (api_patch "/sessions/srv-1" [("status", "CLOSED")]);
     EvReturn update_known_op
       (Returns {| success := true; rdata := Some [("id", "srv-1")] |})] /\
  syncQueue (db (snd (run always_ok (processQueue false)
                        (world edited_entity [update_known_op])))) = [] /\
  (syncStatus <$>
     sessions (db (snd (run always_ok (processQueue false)
                          (world edited_entity [update_known_op])))) !! "local-1")
    = Some pending /\
  (syncStatus <$>
     sessions (db (snd (run always_ok (processQueue false)
                          (world edited_entity [update_known_op])))) !! "local-1")
    <> Some synced.
Proof.
  split; [exact always_ok_succeeds |].
  split; [apply list_elem_of_here |].
  split; [vm_compute; reflexivity |].
  split; [vm_compute; reflexivity |].
  split; [vm_compute; reflexivity |].
  vm_compute. discriminate.
Qed.

(** ** The two semantics agree on a call that runs alone *)

Section Alone.
Context {RS : Type} (api : Request -> RS -> Outcome * RS).

Lemma drive_advance (p : Prog) (w : World RS) :
  exists n,
    drive api n (advance api p w) =
    (Finished (fst (run api p w)), snd (run api p w)).
Proof.
  revert w. induction p as [| e | X e k IH | cb IHcb k IH]; intros w; simpl.
  - exists 0. reflexivity.
  - exists 0. reflexivity.
  - destruct (is_await e).
    + unfold handle. destruct (complete api e (initiate e w)) as [x w'] eqn:Hc.
      destruct (IH x w') as [n Hn]. exists (S n). simpl. rewrite Hc. exact Hn.
    + destruct (handle api e w) as [x w']. apply IH.
  - apply IH.
Qed.

Lemma drive_run (p : Prog) (w : World RS) :
  exists n,
    drive api n (Ready p, w) =
    (Finished (fst (run api p w)), snd (run api p w)).
Proof.
  destruct (drive_advance p w) as [n Hn]. exists (S n). exact Hn.
Qed.

End Alone.

(** ** Two drains at once *)

(** C7, on the code. One enqueue while online: the drain started by the
    effect is still in progress ([isSyncing] is set, the row is queued, its request is in
    flight) when the timer of [addToQueue] calls the [processQueue] it
    closed over; that call passes the guard and submits the same operation
    again. The collaborator serves two creations. *)
Theorem C7_stale_guard_submits_twice :
  isSyncing (hook (snd (schedule always_ok (take 6 overlap)
                          ([Ready enqueue_create], idle_world)))) = true /\
  log (snd (schedule always_ok (take 6 overlap)
              ([Ready enqueue_create], idle_world))) = [posted] /\
  log (snd (schedule always_ok overlap ([Ready enqueue_create], idle_world))) =
    [posted; posted] /\
  remote (snd (schedule always_ok (overlap ++ to_the_end)
                 ([Ready enqueue_create], idle_world))) = 2.
Proof. repeat split; vm_compute; reflexivity. Qed.


(** * Further properties of the hook *)

(** ** What a replay and a drain can do to the queue *)

Section QueueSteps.
Context {RS : Type} (api : Request -> RS -> Outcome * RS).

Abbreviation World := (World RS).
Abbreviation run := (run api).

(** The queue after a replay: the rows of the operation are deleted, or,
    when the operation had fewer than five attempts, updated. *)
Lemma replay_queue_cases (op : SyncOperation) (w : World) :
  syncQueue (db (snd (run (replay op) w))) =
    queue_delete (op_id op) (syncQueue (db w)) \/
  (attempts op < 5 /\
   exists e,
     fst (run (processOperation op) w) = Some e /\
     syncQueue (db (snd (run (replay op) w))) =
       queue_update (op_id op) (attempts op + 1) e (syncQueue (db w))).
Proof.
  rewrite run_replay.
  pose proof (processOperation_handled api op w) as Hh.
  pose proof (handled_queue api op w _ Hh) as Hq.
  destruct (run (processOperation op) w) as [[e |] w1]; simpl in *.
  - unfold failed. destruct (Nat.leb_spec 5 (attempts op)) as [Hge | Hlt]; simpl.
    + left. rewrite queue_delete_update, Hq. reflexivity.
    + right. split; [lia |]. exists e. rewrite Hq. auto.
  - left. rewrite Hq. reflexivity.
Qed.

(** A property of queues kept by deletions and by the updates a replay can
    make is kept by the whole loop. *)
Lemma for_of_queue_invariant (P : list SyncOperation -> Prop)
    (l : list SyncOperation) (w : World) :
  (forall k q, P q -> P (queue_delete k q)) ->
  (forall op e q, op ∈ l -> attempts op < 5 -> P q ->
     P (queue_update (op_id op) (attempts op + 1) e q)) ->
  P (syncQueue (db w)) ->
  P (syncQueue (db (snd (run (for_of l replay) w)))).
Proof.
  intros Hdel. revert w. induction l as [| op l IH]; intros w Hupd HP.
  - exact HP.
  - rewrite run_for_of_cons. apply IH.
    + intros op' e q Hin. apply Hupd. right. exact Hin.
    + destruct (replay_queue_cases op w) as [-> | (Hlt & e & _ & ->)].
      * apply Hdel, HP.
      * apply Hupd; [left | exact Hlt | exact HP].
Qed.

Lemma stored_nextId (op : SyncOperation) (r : ApiResponse) (d : DB) :
  nextId (stored op r d) = nextId d.
Proof.
  unfold stored.
  destruct (type op); try reflexivity.
  destruct (success r && bool_decide (is_Some (rdata r))); try reflexivity.
  destruct (table (entityType op) d !! localId op); try reflexivity.
  destruct (entityType op); reflexivity.
Qed.

Lemma replay_nextId (op : SyncOperation) (w : World) :
  nextId (db (snd (run (replay op) w))) = nextId (db w).
Proof.
  rewrite run_replay.
  pose proof (processOperation_handled api op w) as Hh.
  assert (Hn : nextId (db (snd (run (processOperation op) w))) = nextId (db w)).
  { destruct Hh; simpl; try reflexivity. apply stored_nextId. }
  destruct (run (processOperation op) w) as [[e |] w1]; simpl in *;
    [| exact Hn].
  unfold failed. destruct (5 <=? attempts op)%nat; exact Hn.
Qed.

Lemma for_of_nextId (l : list SyncOperation) (w : World) :
  nextId (db (snd (run (for_of l replay) w))) = nextId (db w).
Proof.
  revert w. induction l as [| op l IH]; intros w; [reflexivity |].
  rewrite run_for_of_cons, IH. apply replay_nextId.
Qed.

Lemma drain_queue (w : World) :
  syncQueue (db (snd (run (processQueue false) w))) =
  syncQueue (db (snd (run (for_of (orderBy_timestamp (syncQueue (db w))) replay)
                        (begin_drain w)))).
Proof. rewrite run_processQueue. reflexivity. Qed.

Lemma queue_update_ids (k a : nat) (e : string) (q : list SyncOperation) :
  op_id <$> queue_update k a e q = op_id <$> q.
Proof.
  unfold queue_update. rewrite <- list_fmap_compose.
  apply list_fmap_ext. intros i o _. simpl.
  destruct (decide (op_id o = k)); reflexivity.
Qed.

Lemma queue_delete_ids_sublist (k : nat) (q : list SyncOperation) :
  (op_id <$> queue_delete k q) `sublist_of` (op_id <$> q).
Proof. apply fmap_sublist, sublist_filter. Qed.

Lemma elem_of_queue_update (k a : nat) (e : string) (q : list SyncOperation)
    (o : SyncOperation) :
  o ∈ queue_update k a e q <->
  (op_id o <> k /\ o ∈ q) \/
  (exists o1, o1 ∈ q /\ op_id o1 = k /\ o = set_attempt a e o1).
Proof.
  unfold queue_update. rewrite list_elem_of_fmap. split.
  - intros (o1 & -> & Hin). destruct (decide (op_id o1 = k)) as [Heq | Hne].
    + right. eauto.
    + left. auto.
  - intros [(Hne & Hin) | (o1 & Hin & Heq & ->)].
    + exists o. rewrite decide_False by assumption. auto.
    + exists o1. rewrite decide_True by assumption. auto.
Qed.

End QueueSteps.

(** ** Invariants of the queue across enqueues and drains *)

Section QueueInvariants.
Context {RS : Type} (api : Request -> RS -> Outcome * RS).

Abbreviation World := (World RS).
Abbreviation run := (run api).

Lemma addToQueue_db (isOnline : bool) (pq : Prog) (now : Z) (ty : OpType)
    (ety : EntityType) (lid : string) (dat : Payload) (sid : option string)
    (w : World) :
  db (snd (run (addToQueue isOnline pq now ty ety lid dat sid) w)) =
  queue_add {| op_id := 0; type := ty; entityType := ety; localId := lid;
               serverId := sid; data := dat; timestamp := now; attempts := 0;
               lastError := None |} (db w).
Proof. unfold addToQueue. destruct isOnline; reflexivity. Qed.

Lemma drain_nextId (w : World) :
  nextId (db (snd (run (processQueue false) w))) = nextId (db w).
Proof. rewrite run_processQueue. simpl. rewrite for_of_nextId. reflexivity. Qed.

(** The keys of the queue stay distinct and below the key generator:
    an enqueue takes a fresh key, a drain only deletes rows or rewrites
    their attempts. *)
Theorem keys_ok_preserved (isOnline : bool) (pq : Prog) (now : Z) (ty : OpType)
    (ety : EntityType) (lid : string) (dat : Payload) (sid : option string)
    (w : World) :
  keys_ok (db w) ->
  keys_ok (db (snd (run (addToQueue isOnline pq now ty ety lid dat sid) w))) /\
  keys_ok (db (snd (run (processQueue false) w))).
Proof.
  intros [Hnd Hlt]. split.
  - rewrite addToQueue_db. unfold keys_ok, queue_add. simpl. split.
    + rewrite fmap_app. apply NoDup_app. split; [exact Hnd |]. split.
      * intros k Hk Hk'. apply list_elem_of_singleton in Hk'. simpl in Hk'.
        apply list_elem_of_fmap in Hk. destruct Hk as (o & -> & Ho).
        apply Hlt in Ho. lia.
      * apply NoDup_singleton.
    + intros o Ho. apply elem_of_app in Ho. destruct Ho as [Ho | Ho].
      * apply Hlt in Ho. lia.
      * apply list_elem_of_singleton in Ho. subst o. simpl. lia.
  - unfold keys_ok. rewrite drain_nextId, drain_queue.
    apply (for_of_queue_invariant api
             (fun q => NoDup (op_id <$> q) /\
                       forall o, o ∈ q -> op_id o < nextId (db w))).
    + intros k q [Hn Hl]. split.
      * eapply sublist_NoDup; [exact Hn | apply queue_delete_ids_sublist].
      * intros o Ho. apply Hl. unfold queue_delete in Ho.
        apply list_elem_of_filter in Ho. tauto.
    + intros op e q _ _ [Hn Hl]. split.
      * rewrite queue_update_ids. exact Hn.
      * intros o Ho. apply elem_of_queue_update in Ho.
        destruct Ho as [(_ & Ho) | (o1 & Ho1 & _ & ->)]; [auto |].
        simpl. auto.
    + split; assumption.
Qed.

(** If no queued row has more than five attempts, this is so again when
    an enqueue has returned and when a drain that ran alone has returned: a
    new row starts at zero, and a row whose failure brings it above five is
    deleted before the drain goes on. (Between that update and that delete
    the row is stored with six.) *)
Theorem attempts_at_most_five_between_calls (isOnline : bool) (pq : Prog) (now : Z)
    (ty : OpType) (ety : EntityType) (lid : string) (dat : Payload)
    (sid : option string) (w : World) :
  (forall o, o ∈ syncQueue (db w) -> attempts o <= 5) ->
  (forall o,
     o ∈ syncQueue
           (db (snd (run (addToQueue isOnline pq now ty ety lid dat sid) w))) ->
     attempts o <= 5) /\
  (forall o,
     o ∈ syncQueue (db (snd (run (processQueue false) w))) -> attempts o <= 5).
Proof.
  intros Hle. split.
  - rewrite addToQueue_db. simpl. intros o Ho.
    apply elem_of_app in Ho. destruct Ho as [Ho | Ho]; [auto |].
    apply list_elem_of_singleton in Ho. subst o. simpl. lia.
  - rewrite drain_queue.
    apply (for_of_queue_invariant api
             (fun q => forall o, o ∈ q -> attempts o <= 5)).
    + intros k q Hq o Ho. apply Hq. unfold queue_delete in Ho.
      apply list_elem_of_filter in Ho. tauto.
    + intros op e q _ Hlt Hq o Ho. apply elem_of_queue_update in Ho.
      destruct Ho as [(_ & Ho) | (o1 & Ho1 & _ & ->)]; [auto |].
      simpl. lia.
    + exact Hle.
Qed.

Lemma same_operation_refl (o : SyncOperation) : same_operation o o.
Proof. unfold same_operation. tauto. Qed.

Lemma drain_keeps (w : World) :
  length (syncQueue (db (snd (run (processQueue false) w)))) <=
    length (syncQueue (db w)) /\
  forall o',
    o' ∈ syncQueue (db (snd (run (processQueue false) w))) ->
    exists o, o ∈ syncQueue (db w) /\ same_operation o o'.
Proof.
  rewrite drain_queue.
  apply (for_of_queue_invariant api
           (fun q => length q <= length (syncQueue (db w)) /\
                     forall o', o' ∈ q ->
                       exists o, o ∈ syncQueue (db w) /\ same_operation o o')).
  - intros k q [Hlen Hq]. split.
    + pose proof (sublist_length _ _ (sublist_filter (fun o => op_id o <> k) q)).
      unfold queue_delete. lia.
    + intros o' Ho'. apply Hq. unfold queue_delete in Ho'.
      apply list_elem_of_filter in Ho'. tauto.
  - intros op e q _ _ [Hlen Hq]. split.
    + unfold queue_update. rewrite length_fmap. exact Hlen.
    + intros o' Ho'. apply elem_of_queue_update in Ho'.
      destruct Ho' as [(_ & Ho') | (o1 & Ho1 & _ & ->)]; [auto |].
      destruct (Hq o1 Ho1) as (o & Ho & Hsame). exists o. split; [exact Ho |].
      unfold same_operation in *. simpl. exact Hsame.
  - split; [apply Nat.le_refl |]. intros o' Ho'. exists o'.
    split; [exact Ho' |]. apply same_operation_refl.
Qed.

(** A drain adds no row and rewrites no operation: the queue does not
    grow, and every row left is a row that was there, with the same key,
    kind, entity, identifiers, payload and timestamp. *)
Theorem drain_keeps_operations (w : World) :
  length (syncQueue (db (snd (run (processQueue false) w)))) <=
    length (syncQueue (db w)) /\
  forall o',
    o' ∈ syncQueue (db (snd (run (processQueue false) w))) ->
    exists o, o ∈ syncQueue (db w) /\ same_operation o o'.
Proof. apply drain_keeps. Qed.

Lemma for_of_marks (l : list SyncOperation) (D : list nat) (w : World) :
  (forall o, o ∈ syncQueue (db w) -> op_id o ∈ D ->
     is_Some (lastError o) /\ 1 <= attempts o) ->
  forall o,
    o ∈ syncQueue (db (snd (run (for_of l replay) w))) ->
    op_id o ∈ (D ++ (op_id <$> l))%list ->
    is_Some (lastError o) /\ 1 <= attempts o.
Proof.
  revert D w. induction l as [| op l IH]; intros D w Hgood o Ho Hid.
  - simpl in *. rewrite app_nil_r in Hid. auto.
  - rewrite run_for_of_cons in Ho.
    apply (IH (D ++ [op_id op])%list (snd (run (replay op) w))); try exact Ho.
    + clear o Ho Hid. intros o Ho Hid.
      apply elem_of_app in Hid. rewrite list_elem_of_singleton in Hid.
      destruct (replay_queue_cases api op w) as [Hq | (_ & e & _ & Hq)];
        rewrite Hq in Ho.
      * unfold queue_delete in Ho. apply list_elem_of_filter in Ho.
        destruct Ho as [Hne Ho]. destruct Hid as [Hid | Hid]; [auto | tauto].
      * apply elem_of_queue_update in Ho.
        destruct Ho as [(Hne & Ho) | (o1 & Ho1 & _ & ->)].
        -- destruct Hid as [Hid | Hid]; [auto | tauto].
        -- simpl. split; [eexists; reflexivity | lia].
    + rewrite <- app_assoc. exact Hid.
Qed.

(** When a drain has run alone (no row was enqueued and no other drain
    ran meanwhile), whatever the collaborator did, every row it leaves in
    the queue records a failure of that drain: it has an error message and
    at least one attempt. *)
Theorem drain_leaves_only_failed_rows (w : World) (o : SyncOperation) :
  o ∈ syncQueue (db (snd (run (processQueue false) w))) ->
  is_Some (lastError o) /\ 1 <= attempts o.
Proof.
  intros Ho.
  destruct (drain_keeps w) as [_ Hkeep].
  destruct (Hkeep o Ho) as (o0 & Ho0 & Hsame).
  rewrite drain_queue in Ho.
  apply (for_of_marks (orderBy_timestamp (syncQueue (db w))) []
           (begin_drain w)); try exact Ho.
  - intros o1 _ Hin. apply elem_of_nil in Hin. contradiction.
  - simpl. destruct Hsame as [<- _]. apply list_elem_of_fmap_2.
    unfold orderBy_timestamp. rewrite merge_sort_Permutation. exact Ho0.
Qed.

(** With distinct keys, a drain submits no operation twice, and sends at
    most one request per queued row. *)
Theorem drain_submits_each_operation_once (w : World) :
  keys_ok (db w) ->
  exists tr,
    log (snd (run (processQueue false) w)) = (log w ++ tr)%list /\
    NoDup (op_id <$> submitted tr) /\
    length (submitted tr) <= length (syncQueue (db w)).
Proof.
  intros [Hnd _]. rewrite run_processQueue.
  destruct (for_of_trace api (orderBy_timestamp (syncQueue (db w)))
              (begin_drain w)) as (tr & Hlog & _ & Hsub).
  exists tr. split; [exact Hlog |].
  assert (Hperm : orderBy_timestamp (syncQueue (db w)) ≡ₚ syncQueue (db w))
    by apply merge_sort_Permutation.
  split.
  - eapply sublist_NoDup; [| apply fmap_sublist; exact Hsub].
    rewrite Hperm. exact Hnd.
  - apply sublist_length in Hsub. rewrite Hperm in Hsub. exact Hsub.
Qed.

End QueueInvariants.

(** ** What a drain does to the entities and to the hook *)

Section DrainFrame.
Context {RS : Type} (api : Request -> RS -> Outcome * RS).

Abbreviation World := (World RS).
Abbreviation run := (run api).

Lemma at_most_bound_trans (e1 e2 e3 : LocalEntity) :
  at_most_bound e1 e2 -> at_most_bound e2 e3 -> at_most_bound e1 e3.
Proof.
  unfold at_most_bound. intros [-> | (H1 & H2 & H3)] [-> | (H4 & H5 & H6)]; auto.
  right. repeat split; congruence.
Qed.

Lemma stored_lookup (op : SyncOperation) (r : ApiResponse) (d : DB)
    (t : EntityType) (lid : string) :
  (~ (type op = CREATE /\ entityType op = t /\ localId op = lid) ->
   table t (stored op r d) !! lid = table t d !! lid) /\
  (forall e', table t (stored op r d) !! lid = Some e' ->
     exists e, table t d !! lid = Some e /\ at_most_bound e e') /\
  dom (table t (stored op r d)) = dom (table t d).
Proof.
  unfold stored.
  destruct (type op) eqn:Hty;
    try (repeat split; try reflexivity; intros e' He'; exists e';
         split; [exact He' | left; reflexivity]).
  destruct (success r && bool_decide (is_Some (rdata r)));
    try (repeat split; try reflexivity; intros e' He'; exists e';
         split; [exact He' | left; reflexivity]).
  destruct (table (entityType op) d !! localId op) eqn:Hget;
    try (repeat split; try reflexivity; intros e' He'; exists e';
         split; [exact He' | left; reflexivity]).
  rewrite table_set_table.
  destruct (decide (t = entityType op)) as [-> | Hne];
    try (repeat split; try reflexivity; intros e' He'; exists e';
         split; [exact He' | left; reflexivity]).
  split; [| split].
  - intros Hnot. rewrite lookup_alter.
    destruct (decide (localId op = lid)) as [Heq | Hne]; [| reflexivity].
    exfalso. apply Hnot. auto.
  - intros e'. rewrite lookup_alter.
    destruct (decide (localId op = lid)) as [<- | Hne].
    + rewrite Hget. simpl. intros He'. inversion He'; subst e'.
      eexists; split; [reflexivity |]. right. simpl. auto.
    + intros He'. exists e'. split; [exact He' | left; reflexivity].
  - apply dom_alter_L.
Qed.

Lemma table_failed (t : EntityType) (op : SyncOperation) (e : string)
    (w : World) :
  table t (db (failed op e w)) = table t (db w).
Proof. unfold failed. destruct (5 <=? attempts op)%nat, t; reflexivity. Qed.

Lemma replay_table (t : EntityType) (op : SyncOperation) (w : World) :
  table t (db (snd (run (replay op) w))) =
  table t (db (snd (run (processOperation op) w))).
Proof.
  rewrite run_replay.
  destruct (run (processOperation op) w) as [[e |] w1]; simpl.
  - apply table_failed.
  - apply table_removed.
Qed.

Lemma replay_entities (op : SyncOperation) (w : World) (t : EntityType)
    (lid : string) :
  (~ (type op = CREATE /\ entityType op = t /\ localId op = lid) ->
   table t (db (snd (run (replay op) w))) !! lid = table t (db w) !! lid) /\
  (forall e', table t (db (snd (run (replay op) w))) !! lid = Some e' ->
     exists e, table t (db w) !! lid = Some e /\ at_most_bound e e') /\
  dom (table t (db (snd (run (replay op) w)))) = dom (table t (db w)).
Proof.
  rewrite replay_table.
  pose proof (processOperation_handled api op w) as Hh.
  destruct Hh as [Hne | req e rs Hapi Htg | req r rs Hapi Htg]; simpl;
    try (repeat split; try reflexivity; intros e' He'; exists e';
         split; [exact He' | left; reflexivity]).
  apply stored_lookup.
Qed.

Lemma for_of_entities (l : list SyncOperation) (w : World) (t : EntityType)
    (lid : string) :
  ((forall op, op ∈ l ->
      ~ (type op = CREATE /\ entityType op = t /\ localId op = lid)) ->
   table t (db (snd (run (for_of l replay) w))) !! lid = table t (db w) !! lid) /\
  (forall e', table t (db (snd (run (for_of l replay) w))) !! lid = Some e' ->
     exists e, table t (db w) !! lid = Some e /\ at_most_bound e e') /\
  dom (table t (db (snd (run (for_of l replay) w)))) = dom (table t (db w)).
Proof.
  revert w. induction l as [| op l IH]; intros w.
  - simpl. repeat split; try reflexivity. intros e' He'. exists e'.
    split; [exact He' | left; reflexivity].
  - rewrite run_for_of_cons.
    destruct (IH (snd (run (replay op) w))) as (IH1 & IH2 & IH3).
    destruct (replay_entities op w t lid) as (R1 & R2 & R3).
    split; [| split].
    + intros Hno. rewrite IH1, R1; [reflexivity | |].
      * apply Hno. left.
      * intros op' Hin. apply Hno. right. exact Hin.
    + intros e' He'. destruct (IH2 e' He') as (e1 & He1 & Hb1).
      destruct (R2 e1 He1) as (e & He & Hb). exists e. split; [exact He |].
      eapply at_most_bound_trans; eassumption.
    + rewrite IH3, R3. reflexivity.
Qed.

(** A drain never adds or deletes a local entity, never touches an entity
    for which no CREATE is queued, and changes the others at most by binding
    an identifier and marking them [synced]: no field is rewritten and no
    status is set to [error] or [pending]. *)
Theorem drain_touches_only_created_entities (w : World) (t : EntityType) :
  dom (table t (db (snd (run (processQueue false) w)))) = dom (table t (db w)) /\
  forall lid,
    ((forall op, op ∈ syncQueue (db w) ->
        ~ (type op = CREATE /\ entityType op = t /\ localId op = lid)) ->
     table t (db (snd (run (processQueue false) w))) !! lid =
       table t (db w) !! lid) /\
    (forall e',
       table t (db (snd (run (processQueue false) w))) !! lid = Some e' ->
       exists e, table t (db w) !! lid = Some e /\ at_most_bound e e').
Proof.
  rewrite run_processQueue. simpl.
  pose proof (for_of_entities (orderBy_timestamp (syncQueue (db w)))
                (begin_drain w) t) as H.
  split; [apply (H "") |].
  intros lid. destruct (H lid) as (H1 & H2 & _). split; [| exact H2].
  intros Hno. apply H1. intros op Hin. apply Hno.
  unfold orderBy_timestamp in Hin. rewrite merge_sort_Permutation in Hin.
  exact Hin.
Qed.

Lemma replay_timers (op : SyncOperation) (w : World) :
  timers (snd (run (replay op) w)) = timers w.
Proof.
  rewrite run_replay.
  pose proof (processOperation_handled api op w) as Hh.
  assert (Ht : timers (snd (run (processOperation op) w)) = timers w)
    by (destruct Hh; reflexivity).
  destruct (run (processOperation op) w) as [[e |] w1]; simpl in *;
    [| exact Ht].
  unfold failed. destruct (5 <=? attempts op)%nat; exact Ht.
Qed.

Lemma for_of_timers (l : list SyncOperation) (w : World) :
  timers (snd (run (for_of l replay) w)) = timers w.
Proof.
  revert w. induction l as [| op l IH]; intros w; [reflexivity |].
  rewrite run_for_of_cons, IH. apply replay_timers.
Qed.

Lemma drain_completes (w : World) :
  fst (run (processQueue false) w) = None /\
  isSyncing (hook (snd (run (processQueue false) w))) = false /\
  pendingCount (hook (snd (run (processQueue false) w))) =
    length (syncQueue (db (snd (run (processQueue false) w)))) /\
  timers (snd (run (processQueue false) w)) = timers w.
Proof.
  rewrite run_processQueue. simpl. repeat split.
  rewrite for_of_timers. reflexivity.
Qed.

(** A drain never throws to its caller, whatever the collaborator does;
    when it ends [isSyncing] is cleared, [pendingCount] is the number of
    rows left in the queue, and no timer was registered. *)
Theorem drain_always_completes (w : World) :
  fst (run (processQueue false) w) = None /\
  isSyncing (hook (snd (run (processQueue false) w))) = false /\
  pendingCount (hook (snd (run (processQueue false) w))) =
    length (syncQueue (db (snd (run (processQueue false) w)))) /\
  timers (snd (run (processQueue false) w)) = timers w.
Proof. apply drain_completes. Qed.

Lemma drain_empty (w : World) :
  syncQueue (db w) = [] ->
  db (snd (run (processQueue false) w)) = db w /\
  log (snd (run (processQueue false) w)) = log w /\
  remote (snd (run (processQueue false) w)) = remote w /\
  hook (snd (run (processQueue false) w)) =
    {| isSyncing := false; pendingCount := 0 |}.
Proof.
  intros Hq. rewrite run_processQueue, Hq. simpl. rewrite Hq. auto.
Qed.

(** Draining an empty queue sends nothing and leaves the database as it
    is; only the hook's flags are reset. *)
Theorem drain_of_empty_queue (w : World) :
  syncQueue (db w) = [] ->
  db (snd (run (processQueue false) w)) = db w /\
  log (snd (run (processQueue false) w)) = log w /\
  remote (snd (run (processQueue false) w)) = remote w /\
  hook (snd (run (processQueue false) w)) =
    {| isSyncing := false; pendingCount := 0 |}.
Proof. apply drain_empty. Qed.

(** What a failed replay records: with fewer than five attempts so far,
    the row stays with one attempt more and the error message; with five
    or more, no row with that key is left. *)
Theorem failed_replay_recorded (op : SyncOperation) (w : World) (e : string) :
  fst (run (processOperation op) w) = Some e ->
  (attempts op < 5 ->
   (op ∈ syncQueue (db w) ->
    set_attempt (attempts op + 1) e op ∈
      syncQueue (db (snd (run (replay op) w)))) /\
   forall o, o ∈ syncQueue (db (snd (run (replay op) w))) ->
     op_id o = op_id op ->
     attempts o = attempts op + 1 /\ lastError o = Some e) /\
  (5 <= attempts op ->
   forall o, o ∈ syncQueue (db (snd (run (replay op) w))) ->
     op_id o <> op_id op).
Proof.
  intros Hthrow. rewrite (failed_replay_queue api op w e Hthrow). split.
  - intros Hlt. destruct (Nat.leb_spec 5 (attempts op)); [lia |]. split.
    + intros Hin. apply elem_of_queue_update. right. exists op. auto.
    + intros o Ho Hid. apply elem_of_queue_update in Ho.
      destruct Ho as [(Hne & _) | (o1 & _ & _ & ->)]; [congruence |].
      simpl. auto.
  - intros Hge. destruct (Nat.leb_spec 5 (attempts op)); [| lia].
    intros o. apply queue_delete_gone.
Qed.

End DrainFrame.

(** C5, as the code has it: when every remote call succeeds, a drain
    empties the queue; every entity that is in its table and has a CREATE
    operation in the queue ends [synced] with an identifier returned by the
    collaborator for a creation of it; and every entity for which no CREATE
    is queued, such as one with only UPDATE or DELETE operations, is left
    exactly as it was, sync status included. *)
Theorem C5_succeeding_drain {RS : Type} (api : Request -> RS -> Outcome * RS)
    (w : World RS) :
  succeeds api ->
  syncQueue (db (snd (run api (processQueue false) w))) = [] /\
  (forall op,
     op ∈ syncQueue (db w) ->
     type op = CREATE ->
     is_Some (table (entityType op) (db w) !! localId op) ->
     bound (entityType op) (localId op)
       (snd (run api (processQueue false) w))) /\
  (forall t lid,
     (forall op, op ∈ syncQueue (db w) ->
        ~ (type op = CREATE /\ entityType op = t /\ localId op = lid)) ->
     table t (db (snd (run api (processQueue false) w))) !! lid =
       table t (db w) !! lid).
Proof.
  intros H. destruct (drain_succeeds api H w) as [Hq Hb].
  split; [exact Hq |]. split; [exact Hb |].
  intros t lid Hno. rewrite run_processQueue. simpl.
  destruct (for_of_entities api (orderBy_timestamp (syncQueue (db w)))
              (begin_drain w) t lid) as (H1 & _).
  apply H1. intros op Hin. apply Hno.
  unfold orderBy_timestamp in Hin. rewrite merge_sort_Permutation in Hin.
  exact Hin.
Qed.

Lemma C5_succeeding_drain_witness :
  succeeds always_ok /\
  syncQueue (db (snd (run always_ok (processQueue false)
                        (world pending_entity [create_op; update_op])))) = [] /\
  (forall op,
     op ∈ syncQueue (db (world pending_entity [create_op; update_op])) ->
     type op = CREATE ->
     is_Some (table (entityType op)
                (db (world pending_entity [create_op; update_op]))
                !! localId op) ->
     bound (entityType op) (localId op)
       (snd (run always_ok (processQueue false)
               (world pending_entity [create_op; update_op])))) /\
  (forall t lid,
     (forall op,
        op ∈ syncQueue (db (world pending_entity [create_op; update_op])) ->
        ~ (type op = CREATE /\ entityType op = t /\ localId op = lid)) ->
     table t (db (snd (run always_ok (processQueue false)
                         (world pending_entity [create_op; update_op]))))
       !! lid =
     table t (db (world pending_entity [create_op; update_op])) !! lid).
Proof.
  split; [exact always_ok_succeeds |].
  apply (C5_succeeding_drain always_ok
           (world pending_entity [create_op; update_op])).
  exact always_ok_succeeds.
Defined.

(** ** From an enqueue to its request *)

Section RoundTrip.
Context {RS : Type} (api : Request -> RS -> Outcome * RS).

Abbreviation World := (World RS).
Abbreviation run := (run api).

Lemma drain_of_one (row : SyncOperation) (w : World) :
  syncQueue (db w) = [row] ->
  snd (run (processQueue false) w) =
  end_drain (snd (run (replay row) (begin_drain w))).
Proof.
  intros Hq. rewrite run_processQueue, Hq. cbn [snd].
  change (orderBy_timestamp [row]) with [row].
  rewrite run_for_of_cons. reflexivity.
Qed.

Lemma addToQueue_alone (isOnline : bool) (pq : Prog) (now : Z) (ty : OpType)
    (ety : EntityType) (lid : string) (dat : Payload) (sid : option string)
    (w : World) :
  syncQueue (db w) = [] ->
  syncQueue (db (snd (run (addToQueue isOnline pq now ty ety lid dat sid) w))) =
    [{| op_id := nextId (db w); type := ty; entityType := ety; localId := lid;
        serverId := sid; data := dat; timestamp := now; attempts := 0;
        lastError := None |}] /\
  log (snd (run (addToQueue isOnline pq now ty ety lid dat sid) w)) = log w /\
  remote (snd (run (addToQueue isOnline pq now ty ety lid dat sid) w)) =
    remote w.
Proof.
  intros Hq. rewrite run_addToQueue, Hq.
  unfold addToQueue. destruct isOnline; auto.
Qed.

(** Round trip of an update: enqueued on an empty queue with a non-empty
    server identifier and then drained, it produces exactly one request, a
    PATCH of [/sessions/<serverId>] carrying the payload as enqueued; the
    queue ends empty if the call returns, and holds the row with one attempt
    and the error if it throws. *)
Theorem enqueue_then_drain_session_update (isOnline : bool) (pq : Prog)
    (now : Z) (lid : string) (dat : Payload) (sid : string) (w : World) :
  syncQueue (db w) = [] ->
  sid <> "" ->
  let row := {| op_id := nextId (db w); type := UPDATE; entityType := session;
                localId := lid; serverId := Some sid; data := dat;
                timestamp := now; attempts := 0; lastError := None |} in
  let req := api_patch ("/sessions/" +:+ sid) dat in
  let w1 := snd (run (addToQueue isOnline pq now UPDATE session lid dat
                        (Some sid)) w) in
  let w2 := snd (run (processQueue false) w1) in
  log w2 = (log w ++ [EvCall row req; EvReturn row (fst (api req (remote w)))])%list /\
  syncQueue (db w2) =
    match fst (api req (remote w)) with
    | Returns _ => []
    | Throws e => [set_attempt 1 e row]
    end.
Proof.
  intros Hq Hsid row req w1 w2.
  destruct (addToQueue_alone isOnline pq now UPDATE session lid dat (Some sid)
              w Hq) as (Hq1 & Hlog1 & Hrem1).
  fold row in Hq1. fold w1 in Hq1, Hlog1, Hrem1.
  unfold w2. rewrite (drain_of_one row w1 Hq1).
  assert (Htr : truthy (Some sid) = Some sid)
    by (destruct sid; [congruence | reflexivity]).
  rewrite run_replay.
  assert (Hop : processOperation row =
                api_call row req (fun _ => Done)).
  { unfold processOperation, processSessionOperation.
    cbn [entityType type serverId data row]. rewrite Htr. reflexivity. }
  rewrite Hop, run_api_call.
  change (remote (begin_drain w1)) with (remote w1). rewrite Hrem1.
  destruct (api req (remote w)) as [[r | e] rs]; cbn [fst snd].
  - split.
    + cbn. rewrite Hlog1, <- app_assoc. reflexivity.
    + cbn. rewrite Hq1. unfold queue_delete.
      rewrite filter_cons_False by (simpl; tauto). reflexivity.
  - split.
    + cbn. rewrite Hlog1, <- app_assoc. reflexivity.
    + cbn. rewrite Hq1. unfold queue_update. cbn.
      rewrite decide_True by reflexivity. reflexivity.
Qed.

(** A creation of an item whose payload has no [sessionId] is still
    sent: the request is posted to [/sessions/undefined/items]. *)
Theorem item_create_without_sessionId (op : SyncOperation) (w : World) :
  type op = CREATE ->
  entityType op = item ->
  get_prop "sessionId" (data op) = None ->
  log (snd (run (replay op) w)) =
    (log w ++
     [EvCall op (api_post "/sessions/undefined/items" (data op));
      EvReturn op
        (fst (api (api_post "/sessions/undefined/items" (data op))
                (remote w)))])%list.
Proof.
  intros Hty Hety Hget. rewrite replay_log.
  assert (Hop : processOperation op =
                create_case item "/sessions/undefined/items" op).
  { unfold processOperation, processItemOperation.
    rewrite Hety, Hty, Hget. reflexivity. }
  rewrite Hop. unfold create_case. rewrite run_api_call.
  destruct (api (api_post "/sessions/undefined/items" (data op)) (remote w))
    as [[r | e] rs]; simpl; [| rewrite <- app_assoc; reflexivity].
  destruct (success r && bool_decide (is_Some (rdata r))); simpl;
    [| rewrite <- app_assoc; reflexivity].
  unfold handle. simpl.
  destruct (items (db w) !! localId op); simpl;
    rewrite <- app_assoc; reflexivity.
Qed.

End RoundTrip.

(** ** The indicator *)

(** The indicator is absent exactly when the client is online, idle and has
    nothing pending, and when present it always shows something. Offline it
    shows the offline label, syncing or not, with the pending count exactly
    when that is positive; online it shows the spinner exactly when syncing,
    and the pending count exactly when idle with a positive count. *)
Theorem indicator_cases (isOnline isSyncing : bool) (pendingCount : nat) :
  (OfflineIndicator isOnline isSyncing pendingCount = None <->
   isOnline = true /\ isSyncing = false /\ pendingCount = 0) /\
  OfflineIndicator isOnline isSyncing pendingCount <> Some NoBadge /\
  (forall b,
     OfflineIndicator isOnline isSyncing pendingCount = Some (OfflineBadge b) <->
     isOnline = false /\
     b = if (0 <? pendingCount)%nat then Some pendingCount else None) /\
  (OfflineIndicator isOnline isSyncing pendingCount = Some SyncingBadge <->
   isOnline = true /\ isSyncing = true) /\
  (forall n,
     OfflineIndicator isOnline isSyncing pendingCount = Some (PendingBadge n) <->
     n = pendingCount /\ 0 < n /\ isOnline = true /\ isSyncing = false).
Proof.
  unfold OfflineIndicator.
  destruct isOnline, isSyncing, pendingCount as [| n]; simpl;
    repeat match goal with
           | |- _ /\ _ => split
           | |- _ <-> _ => split
           | |- forall _, _ => intro
           end;
    try discriminate; try reflexivity;
    repeat match goal with
           | H : _ /\ _ |- _ => destruct H
           | H : Some _ = Some _ |- _ => inversion H; clear H
           end;
    subst; try discriminate; try reflexivity; try lia; try congruence.
Qed.

(** When a drain in which every call succeeded has run alone (nothing was
    enqueued meanwhile), the queue is empty, the hook is idle with nothing
    pending, and an online client shows no indicator. *)
Theorem indicator_hidden_after_successful_drain {RS : Type}
    (api : Request -> RS -> Outcome * RS) (w : World RS) :
  succeeds api ->
  syncQueue (db (snd (run api (processQueue false) w))) = [] /\
  isSyncing (hook (snd (run api (processQueue false) w))) = false /\
  pendingCount (hook (snd (run api (processQueue false) w))) = 0 /\
  OfflineIndicator true
    (isSyncing (hook (snd (run api (processQueue false) w))))
    (pendingCount (hook (snd (run api (processQueue false) w)))) = None.
Proof.
  intros Hs.
  destruct (drain_completes api w) as (_ & Hsync & Hcount & _).
  destruct (drain_succeeds api Hs w) as [Hq _].
  rewrite Hsync, Hcount, Hq. auto.
Qed.

Lemma indicator_hidden_after_successful_drain_witness :
  syncQueue (db (snd (run always_ok (processQueue false)
                        (world pending_entity [create_op; update_op])))) = [] /\
  isSyncing (hook (snd (run always_ok (processQueue false)
                          (world pending_entity [create_op; update_op])))) = false /\
  pendingCount (hook (snd (run always_ok (processQueue false)
                             (world pending_entity [create_op; update_op])))) = 0 /\
  OfflineIndicator true
    (isSyncing (hook (snd (run always_ok (processQueue false)
                             (world pending_entity [create_op; update_op])))))
    (pendingCount (hook (snd (run always_ok (processQueue false)
                                (world pending_entity [create_op; update_op])))))
    = None.
Proof.
  apply (indicator_hidden_after_successful_drain always_ok
           (world pending_entity [create_op; update_op])).
  exact always_ok_succeeds.
Defined.

(** ** The cached catalogs *)

Lemma bulkPut_cons (r : LocalReference) (rows : list LocalReference)
    (m : gmap string LocalReference) :
  bulkPut (r :: rows) m = bulkPut rows (<[lr_id r := r]> m).
Proof. reflexivity. Qed.

Lemma bulkPut_lookup_notin (rows : list LocalReference)
    (m : gmap string LocalReference) (k : string) :
  k ∉ lr_id <$> rows -> bulkPut rows m !! k = m !! k.
Proof.
  revert m. induction rows as [| r rows IH]; intros m Hk; [reflexivity |].
  rewrite fmap_cons, not_elem_of_cons in Hk. destruct Hk as [Hne Hk].
  rewrite bulkPut_cons, IH by exact Hk. apply lookup_insert_ne. congruence.
Qed.

Lemma bulkPut_lookup_in (rows : list LocalReference)
    (m : gmap string LocalReference) (r : LocalReference) :
  NoDup (lr_id <$> rows) -> r ∈ rows -> bulkPut rows m !! lr_id r = Some r.
Proof.
  revert m. induction rows as [| r0 rows IH]; intros m Hnd Hin.
  - apply elem_of_nil in Hin. contradiction.
  - rewrite fmap_cons in Hnd. apply NoDup_cons in Hnd. destruct Hnd as [Hfresh Hnd].
    rewrite bulkPut_cons. apply elem_of_cons in Hin. destruct Hin as [-> | Hin].
    + rewrite bulkPut_lookup_notin by exact Hfresh. apply lookup_insert_eq.
    + apply IH; assumption.
Qed.

Lemma bulkPut_lookup_indep (rows : list LocalReference)
    (m m' : gmap string LocalReference) (k : string) :
  k ∈ lr_id <$> rows -> bulkPut rows m !! k = bulkPut rows m' !! k.
Proof.
  revert m m'. induction rows as [| r rows IH]; intros m m' Hk.
  - apply elem_of_nil in Hk. contradiction.
  - rewrite !bulkPut_cons.
    destruct (decide (k ∈ lr_id <$> rows)) as [Hin | Hnotin].
    + apply IH. exact Hin.
    + rewrite fmap_cons in Hk. apply elem_of_cons in Hk.
      destruct Hk as [-> | Hk]; [| contradiction].
      rewrite !bulkPut_lookup_notin by exact Hnotin.
      rewrite !lookup_insert_eq. reflexivity.
Qed.

Lemma bulkPut_idemp (rows : list LocalReference)
    (m : gmap string LocalReference) :
  bulkPut rows (bulkPut rows m) = bulkPut rows m.
Proof.
  apply map_eq. intros k.
  destruct (decide (k ∈ lr_id <$> rows)) as [Hin | Hnotin].
  - apply bulkPut_lookup_indep. exact Hin.
  - rewrite bulkPut_lookup_notin by exact Hnotin. reflexivity.
Qed.

Lemma localize_ids (clock : nat -> Z) (l : list Reference) :
  lr_id <$> localize clock l = ref_id <$> l.
Proof.
  unfold localize. rewrite fmap_imap.
  revert clock. induction l as [| p l IH]; intros clock; [reflexivity |].
  simpl. f_equal. apply (IH (fun i => clock (S i))).
Qed.

Lemma bulkPut_caches (clock : nat -> Z) (l : list Reference)
    (m : gmap string LocalReference) :
  NoDup (ref_id <$> l) -> caches l m (bulkPut (localize clock l) m).
Proof.
  intros Hnd. split.
  - intros p Hp. apply list_elem_of_lookup in Hp. destruct Hp as [i Hi].
    exists (as_synced (clock i) p).
    split; [| simpl; auto].
    change (ref_id p) with (lr_id (as_synced (clock i) p)).
    apply bulkPut_lookup_in.
    + rewrite localize_ids. exact Hnd.
    + unfold localize.
      apply (elem_of_lookup_imap_2 (fun i p => as_synced (clock i) p) l p i Hi).
  - intros k Hk. apply bulkPut_lookup_notin. rewrite localize_ids. exact Hk.
Qed.

(** Caching a catalog whose elements have distinct ids stores every element
    under its id, with its fields and marked [synced], keeps the rows cached
    under other ids, and leaves the other two catalogs alone. *)
Theorem cache_stores_every_element (clock : nat -> Z) (l : list Reference)
    (c : Catalogs) :
  NoDup (ref_id <$> l) ->
  (caches l (products c) (products (cacheProducts clock l c)) /\
   workstations (cacheProducts clock l c) = workstations c /\
   defectTypes (cacheProducts clock l c) = defectTypes c) /\
  (caches l (workstations c) (workstations (cacheWorkstations clock l c)) /\
   products (cacheWorkstations clock l c) = products c /\
   defectTypes (cacheWorkstations clock l c) = defectTypes c) /\
  (caches l (defectTypes c) (defectTypes (cacheDefectTypes clock l c)) /\
   products (cacheDefectTypes clock l c) = products c /\
   workstations (cacheDefectTypes clock l c) = workstations c).
Proof.
  intros Hnd.
  repeat split; try reflexivity; apply bulkPut_caches; exact Hnd.
Qed.

Lemma cache_stores_every_element_witness :
  (caches [{| ref_id := "p-1"; ref_fields := [("code", "A")] |}] ∅
     (products (cacheProducts (fun _ => 5%Z)
                  [{| ref_id := "p-1"; ref_fields := [("code", "A")] |}]
                  {| products := ∅; workstations := ∅; defectTypes := ∅ |})) /\
   workstations (cacheProducts (fun _ => 5%Z)
                   [{| ref_id := "p-1"; ref_fields := [("code", "A")] |}]
                   {| products := ∅; workstations := ∅; defectTypes := ∅ |}) = ∅ /\
   defectTypes (cacheProducts (fun _ => 5%Z)
                  [{| ref_id := "p-1"; ref_fields := [("code", "A")] |}]
                  {| products := ∅; workstations := ∅; defectTypes := ∅ |}) = ∅).
Proof.
  apply (cache_stores_every_element (fun _ => 5%Z)
           [{| ref_id := "p-1"; ref_fields := [("code", "A")] |}]
           {| products := ∅; workstations := ∅; defectTypes := ∅ |}).
  apply NoDup_singleton.
Defined.

(** Caching the same list again, with the same times, changes nothing: a
    refetch of an unchanged catalog is idempotent, also when the list has
    repeated ids (the last element with an id wins both times). *)
Theorem cache_twice_is_once (clock : nat -> Z) (l : list Reference)
    (c : Catalogs) :
  cacheProducts clock l (cacheProducts clock l c) = cacheProducts clock l c /\
  cacheWorkstations clock l (cacheWorkstations clock l c) =
    cacheWorkstations clock l c /\
  cacheDefectTypes clock l (cacheDefectTypes clock l c) =
    cacheDefectTypes clock l c.
Proof.
  unfold cacheProducts, cacheWorkstations, cacheDefectTypes. simpl.
  rewrite !bulkPut_idemp. auto.
Qed.

(** A catalog request that is rejected, or answered without data or with
    an empty list, leaves the cache as it was: what was cached stays
    available offline. *)
Theorem failed_fetch_keeps_cache (clock : nat -> Z) (out : GetOutcome)
    (c : Catalogs) :
  (exists e, out = GetThrows e) \/ out = GetReturns None \/
    out = GetReturns (Some []) ->
  snd (queryFn (cacheProducts clock) out c) = c /\
  snd (queryFn (cacheWorkstations clock) out c) = c /\
  snd (queryFn (cacheDefectTypes clock) out c) = c.
Proof.
  intros [[e ->] | [-> | ->]]; destruct c; auto.
Qed.

Lemma failed_fetch_keeps_cache_witness :
  snd (queryFn (cacheProducts (fun _ => 5%Z)) (GetReturns None)
         {| products := ∅; workstations := ∅; defectTypes := ∅ |}) =
    {| products := ∅; workstations := ∅; defectTypes := ∅ |} /\
  snd (queryFn (cacheWorkstations (fun _ => 5%Z)) (GetReturns None)
         {| products := ∅; workstations := ∅; defectTypes := ∅ |}) =
    {| products := ∅; workstations := ∅; defectTypes := ∅ |} /\
  snd (queryFn (cacheDefectTypes (fun _ => 5%Z)) (GetReturns None)
         {| products := ∅; workstations := ∅; defectTypes := ∅ |}) =
    {| products := ∅; workstations := ∅; defectTypes := ∅ |}.
Proof.
  apply (failed_fetch_keeps_cache (fun _ => 5%Z) (GetReturns None)
           {| products := ∅; workstations := ∅; defectTypes := ∅ |}).
  right; left; reflexivity.
Defined.

(** ** Offline: nothing is sent *)

Section Offline.
Context {RS : Type} (api : Request -> RS -> Outcome * RS).

Abbreviation World := (World RS).

Lemma initiate_quiet {X : Type} (e : Eff X) (w : World) :
  is_request e = false -> initiate e w = w.
Proof. destruct e; simpl; try discriminate; reflexivity. Qed.

Lemma complete_quiet {X : Type} (e : Eff X) (w : World) :
  is_request e = false ->
  log (snd (complete api e w)) = log w /\
  remote (snd (complete api e w)) = remote w /\
  timers (snd (complete api e w)) = timers w.
Proof. destruct e; simpl; try discriminate; auto. Qed.

Lemma advance_quiet (p : Prog) :
  quiet p ->
  forall w : World,
    Forall quiet (timers w) ->
    quiet_task (fst (advance api p w)) /\
    Forall quiet (timers (snd (advance api p w))) /\
    log (snd (advance api p w)) = log w /\
    remote (snd (advance api p w)) = remote w.
Proof.
  induction 1 as [| e | X e k Hreq Hk IH | cb k Hcb IHcb Hq IHk];
    intros w Hw; simpl.
  - auto.
  - auto.
  - destruct (is_await e).
    + simpl. rewrite initiate_quiet by exact Hreq. repeat split; auto.
    + unfold handle. rewrite initiate_quiet by exact Hreq.
      destruct (complete_quiet e w Hreq) as (Hl & Hr & Ht).
      destruct (complete api e w) as [x w']. simpl in *.
      rewrite <- Ht in Hw.
      destruct (IH x w' Hw) as (H1 & H2 & H3 & H4).
      repeat split; auto; congruence.
  - assert (Hw' : Forall quiet (timers (set_timers (timers w ++ [cb]) w))).
    { simpl. apply Forall_app. split; [exact Hw |].
      apply Forall_singleton. exact Hcb. }
    destruct (IHk _ Hw') as (H1 & H2 & H3 & H4). repeat split; auto.
Qed.

Lemma resume_quiet (t : Task) (w : World) :
  quiet_task t ->
  Forall quiet (timers w) ->
  quiet_task (fst (resume api t w)) /\
  Forall quiet (timers (snd (resume api t w))) /\
  log (snd (resume api t w)) = log w /\
  remote (snd (resume api t w)) = remote w.
Proof.
  destruct t as [p | X e k | r]; simpl.
  - intros Hq Hw. apply advance_quiet; assumption.
  - intros [Hreq Hk] Hw.
    destruct (complete_quiet e w Hreq) as (Hl & Hr & Ht).
    destruct (complete api e w) as [x w']. simpl in *.
    rewrite <- Ht in Hw.
    destruct (advance_quiet (k x) (Hk x) w' Hw) as (H1 & H2 & H3 & H4).
    repeat split; auto; congruence.
  - auto.
Qed.

Lemma act_quiet (s : list Task * World) (a : Action) :
  a <> Render true ->
  Forall quiet_task (fst s) ->
  Forall quiet (timers (snd s)) ->
  Forall quiet_task (fst (act api s a)) /\
  Forall quiet (timers (snd (act api s a))) /\
  log (snd (act api s a)) = log (snd s) /\
  remote (snd (act api s a)) = remote (snd s).
Proof.
  destruct s as [tasks w]. intros Ha Hall Hw. simpl in Hall, Hw.
  destruct a as [i | i | b]; simpl.
  - destruct (tasks !! i) as [t |] eqn:Hi; [| simpl; auto].
    assert (Ht : quiet_task t).
    { rewrite Forall_forall in Hall. apply Hall.
      apply list_elem_of_lookup. eauto. }
    destruct (resume_quiet t w Ht Hw) as (H1 & H2 & H3 & H4).
    destruct (resume api t w) as [t' w']. simpl in *.
    repeat split; auto. apply Forall_insert; assumption.
  - destruct (timers w !! i) as [cb |] eqn:Hi; [| simpl; auto].
    simpl. repeat split.
    + apply Forall_app. split; [exact Hall |]. apply Forall_singleton.
      simpl. rewrite Forall_forall in Hw. apply Hw.
      apply list_elem_of_lookup. eauto.
    + apply Forall_delete. exact Hw.
  - destruct b; [congruence |]. simpl. auto.
Qed.

Lemma schedule_quiet (acts : list Action) (s : list Task * World) :
  Render true ∉ acts ->
  Forall quiet_task (fst s) ->
  Forall quiet (timers (snd s)) ->
  log (snd (schedule api acts s)) = log (snd s) /\
  remote (snd (schedule api acts s)) = remote (snd s).
Proof.
  revert s. induction acts as [| a acts IH]; intros s Hno Hall Hw.
  - auto.
  - apply not_elem_of_cons in Hno. destruct Hno as [Ha Hno].
    destruct (act_quiet s a (not_eq_sym Ha) Hall Hw) as (H1 & H2 & H3 & H4).
    destruct (IH (act api s a) Hno H1 H2) as [H5 H6].
    unfold schedule in *. simpl. split; congruence.
Qed.

Lemma addToQueue_offline_quiet (pq : Prog) (now : Z) (ty : OpType)
    (ety : EntityType) (lid : string) (dat : Payload) (sid : option string) :
  quiet (addToQueue false pq now ty ety lid dat sid).
Proof.
  unfold addToQueue. apply quiet_Vis; [reflexivity |]. intros _.
  apply quiet_Vis; [reflexivity |]. intros _. apply quiet_Done.
Qed.

(** While the client is offline nothing is sent, however many operations
    are enqueued and however the calls, the timers and the renders are
    interleaved: [addToQueue] registers no timer, and the effect starts no
    drain. *)
Theorem offline_sends_nothing (acts : list Action) (calls : list Prog)
    (w : World) :
  Render true ∉ acts ->
  (forall p, p ∈ calls ->
     exists pq now ty ety lid dat sid,
       p = addToQueue false pq now ty ety lid dat sid) ->
  timers w = [] ->
  log (snd (schedule api acts (Ready <$> calls, w))) = log w /\
  remote (snd (schedule api acts (Ready <$> calls, w))) = remote w.
Proof.
  intros Hno Hcalls Ht.
  apply (schedule_quiet acts (Ready <$> calls, w) Hno).
  - simpl. apply Forall_fmap, Forall_forall. intros p Hp. simpl.
    destruct (Hcalls p Hp) as (pq & now & ty & ety & lid & dat & sid & ->).
    apply addToQueue_offline_quiet.
  - simpl. rewrite Ht. constructor.
Qed.

End Offline.

(** ** The pending count, and clearing the database *)

(** The pending count follows the queue: the poll and the end of a drain
    set it to the number of rows, and an enqueue that starts from an accurate
    count leaves it accurate. *)
Theorem pending_count_tracks_queue {RS : Type}
    (api : Request -> RS -> Outcome * RS) (isOnline : bool) (pq : Prog)
    (now : Z) (ty : OpType) (ety : EntityType) (lid : string) (dat : Payload)
    (sid : option string) (w : World RS) :
  pendingCount (hook (snd (run api updateCount w))) =
    length (syncQueue (db (snd (run api updateCount w)))) /\
  pendingCount (hook (snd (run api (processQueue false) w))) =
    length (syncQueue (db (snd (run api (processQueue false) w)))) /\
  (pendingCount (hook w) = length (syncQueue (db w)) ->
   pendingCount
     (hook (snd (run api (addToQueue isOnline pq now ty ety lid dat sid) w))) =
   length
     (syncQueue
        (db (snd (run api (addToQueue isOnline pq now ty ety lid dat sid) w))))).
Proof.
  split; [reflexivity |]. split.
  - apply drain_completes.
  - intros Hc. rewrite run_addToQueue, length_app. simpl.
    unfold addToQueue. destruct isOnline; simpl; rewrite Hc; reflexivity.
Qed.

(** Clearing the database drops the pending operations for good: the
    queue, the entities and the catalogs are empty, and a drain that follows
    sends nothing and finds nothing pending. *)
Theorem clearAllData_drops_pending_work {RS : Type}
    (api : Request -> RS -> Outcome * RS) (w : World RS) (c : Catalogs) :
  syncQueue (fst (clearAllData (db w) c)) = [] /\
  (forall t k, table t (fst (clearAllData (db w) c)) !! k = None) /\
  (forall k,
     products (snd (clearAllData (db w) c)) !! k = None /\
     workstations (snd (clearAllData (db w) c)) !! k = None /\
     defectTypes (snd (clearAllData (db w) c)) !! k = None) /\
  log (snd (run api (processQueue false)
              (set_db (fst (clearAllData (db w) c)) w))) = log w /\
  remote (snd (run api (processQueue false)
                 (set_db (fst (clearAllData (db w) c)) w))) = remote w /\
  pendingCount (hook (snd (run api (processQueue false)
                             (set_db (fst (clearAllData (db w) c)) w)))) = 0.
Proof.
  split; [reflexivity |].
  split; [intros [] k; apply lookup_empty |].
  split; [intros k; repeat split; apply lookup_empty |].
  destruct (drain_empty api (set_db (fst (clearAllData (db w) c)) w)
              eq_refl) as (_ & Hl & Hr & Hh).
  rewrite Hl, Hr, Hh. auto.
Qed.

(** ** The properties at concrete inputs *)

Lemma keys_ok_world : keys_ok (db (world pending_entity [create_op; update_op])).
Proof.
  split.
  - simpl. apply NoDup_cons. split.
    + rewrite list_elem_of_singleton. discriminate.
    + apply NoDup_singleton.
  - intros o Ho. simpl in Ho.
    rewrite elem_of_cons, list_elem_of_singleton in Ho.
    destruct Ho as [-> | ->]; simpl; lia.
Qed.

Lemma keys_ok_preserved_witness :
  keys_ok
    (db (snd (run always_ok
                (addToQueue false (processQueue false) 3000 DELETE session
                   "local-1" [] None)
                (world pending_entity [create_op; update_op])))) /\
  keys_ok
    (db (snd (run always_ok (processQueue false)
                (world pending_entity [create_op; update_op])))).
Proof.
  apply (keys_ok_preserved always_ok false (processQueue false) 3000 DELETE
           session "local-1" [] None
           (world pending_entity [create_op; update_op])).
  exact keys_ok_world.
Defined.

Lemma attempts_world (o : SyncOperation) :
  o ∈ syncQueue (db (world pending_entity [create_op; update_op])) ->
  attempts o <= 5.
Proof.
  simpl. rewrite elem_of_cons, list_elem_of_singleton.
  intros [-> | ->]; simpl; lia.
Qed.

Lemma attempts_at_most_five_between_calls_witness :
  (forall o,
     o ∈ syncQueue
           (db (snd (run always_fails
                       (addToQueue false (processQueue false) 3000 DELETE
                          session "local-1" [] None)
                       (world pending_entity [create_op; update_op])))) ->
     attempts o <= 5) /\
  (forall o,
     o ∈ syncQueue
           (db (snd (run always_fails (processQueue false)
                       (world pending_entity [create_op; update_op])))) ->
     attempts o <= 5).
Proof.
  apply (attempts_at_most_five_between_calls always_fails false (processQueue false)
           3000 DELETE session "local-1" [] None
           (world pending_entity [create_op; update_op])).
  exact attempts_world.
Defined.

Lemma drain_leaves_only_failed_rows_witness :
  is_Some (lastError (set_attempt 1 "Error: Network Error" create_op)) /\
  1 <= attempts (set_attempt 1 "Error: Network Error" create_op).
Proof.
  apply (drain_leaves_only_failed_rows always_fails
           (world pending_entity [create_op])
           (set_attempt 1 "Error: Network Error" create_op)).
  vm_compute. apply list_elem_of_here.
Defined.

Lemma drain_submits_each_operation_once_witness :
  exists tr,
    log (snd (run always_ok (processQueue false)
                (world pending_entity [create_op; update_op]))) =
      ([] ++ tr)%list /\
    NoDup (op_id <$> submitted tr) /\
    length (submitted tr) <= 2.
Proof.
  apply (drain_submits_each_operation_once always_ok
           (world pending_entity [create_op; update_op])).
  exact keys_ok_world.
Defined.

Lemma drain_of_empty_queue_witness :
  db (snd (run always_ok (processQueue false) idle_world)) = db idle_world /\
  log (snd (run always_ok (processQueue false) idle_world)) = [] /\
  remote (snd (run always_ok (processQueue false) idle_world)) = 0 /\
  hook (snd (run always_ok (processQueue false) idle_world)) =
    {| isSyncing := false; pendingCount := 0 |}.
Proof.
  apply (drain_of_empty_queue always_ok idle_world). reflexivity.
Defined.

Lemma failed_replay_recorded_witness :
  (attempts create_op < 5 ->
   (create_op ∈ syncQueue (db (world pending_entity [create_op])) ->
    set_attempt (attempts create_op + 1) "Error: Network Error" create_op ∈
      syncQueue (db (snd (run always_fails (replay create_op)
                            (world pending_entity [create_op]))))) /\
   forall o,
     o ∈ syncQueue (db (snd (run always_fails (replay create_op)
                               (world pending_entity [create_op])))) ->
     op_id o = op_id create_op ->
     attempts o = attempts create_op + 1 /\
     lastError o = Some "Error: Network Error") /\
  (5 <= attempts create_op ->
   forall o,
     o ∈ syncQueue (db (snd (run always_fails (replay create_op)
                               (world pending_entity [create_op])))) ->
     op_id o <> op_id create_op).
Proof.
  apply (failed_replay_recorded always_fails create_op
           (world pending_entity [create_op]) "Error: Network Error").
  reflexivity.
Defined.

Lemma enqueue_then_drain_session_update_witness :
  log (snd (run always_ok (processQueue false)
              (snd (run always_ok
                      (addToQueue true (processQueue false) 2000 UPDATE session
                         "local-1" [("status", "CLOSED")] (Some "srv-1"))
                      idle_world)))) =
    [EvCall
       {| op_id := 1; type := UPDATE; entityType := session;
          localId := "local-1"; serverId := Some "srv-1";
          data := [("status", "CLOSED")]; timestamp := 2000; attempts := 0;
          lastError := None |}
       (api_patch "/sessions/srv-1" [("status", "CLOSED")]);
     EvReturn
       {| op_id := 1; type := UPDATE; entityType := session;
          localId := "local-1"; serverId := Some "srv-1";
          data := [("status", "CLOSED")]; timestamp := 2000; attempts := 0;
          lastError := None |}
       (Returns {| success := true; rdata := Some [("id", "srv-1")] |})] /\
  syncQueue
    (db (snd (run always_ok (processQueue false)
                (snd (run always_ok
                        (addToQueue true (processQueue false) 2000 UPDATE
                           session "local-1" [("status", "CLOSED")]
                           (Some "srv-1"))
                        idle_world))))) = [].
Proof.
  apply (enqueue_then_drain_session_update always_ok true (processQueue false)
           2000 "local-1" [("status", "CLOSED")] "srv-1" idle_world).
  - reflexivity.
  - discriminate.
Defined.

Lemma item_create_without_sessionId_witness :
  log (snd (run always_ok
              (replay {| op_id := 4; type := CREATE; entityType := item;
                         localId := "local-2"; serverId := None; data := [];
                         timestamp := 4000; attempts := 0; lastError := None |})
              idle_world)) =
    [EvCall {| op_id := 4; type := CREATE; entityType := item;
               localId := "local-2"; serverId := None; data := [];
               timestamp := 4000; attempts := 0; lastError := None |}
       (api_post "/sessions/undefined/items" []);
     EvReturn {| op_id := 4; type := CREATE; entityType := item;
                 localId := "local-2"; serverId := None; data := [];
                 timestamp := 4000; attempts := 0; lastError := None |}
       (Returns {| success := true; rdata := Some [("id", "srv-1")] |})].
Proof.
  apply (item_create_without_sessionId always_ok
           {| op_id := 4; type := CREATE; entityType := item;
              localId := "local-2"; serverId := None; data := [];
              timestamp := 4000; attempts := 0; lastError := None |}
           idle_world); reflexivity.
Defined.

Lemma pending_count_tracks_queue_witness :
  pendingCount
    (hook (snd (run always_ok
                  (addToQueue false (processQueue false) 1000 CREATE session
                     "local-1" [] None) idle_world))) =
  length
    (syncQueue
       (db (snd (run always_ok
                   (addToQueue false (processQueue false) 1000 CREATE session
                      "local-1" [] None) idle_world)))).
Proof.
  apply (pending_count_tracks_queue always_ok false (processQueue false) 1000
           CREATE session "local-1" [] None idle_world).
  reflexivity.
Defined.

Lemma offline_sends_nothing_witness :
  log (snd (schedule always_ok [Resume 0; Resume 0; Render false; Fire 0]
              (Ready <$> [addToQueue false (processQueue false) 1000 CREATE
                            session "local-1" [("productId", "p-1")] None],
               idle_world))) = [] /\
  remote (snd (schedule always_ok [Resume 0; Resume 0; Render false; Fire 0]
                 (Ready <$> [addToQueue false (processQueue false) 1000 CREATE
                               session "local-1" [("productId", "p-1")] None],
                  idle_world))) = 0.
Proof.
  apply (offline_sends_nothing always_ok
           [Resume 0; Resume 0; Render false; Fire 0]
           [addToQueue false (processQueue false) 1000 CREATE session "local-1"
              [("productId", "p-1")] None]
           idle_world).
  - intros H. repeat (apply elem_of_cons in H; destruct H as [H | H];
                      [discriminate |]).
    apply elem_of_nil in H. exact H.
  - intros p Hp. apply list_elem_of_singleton in Hp. subst p.
    eexists _, _, _, _, _, _, _. reflexivity.
  - reflexivity.
Defined.
